(** * FaviconAnimator: a shallow embedding of [js/favicon-animator.js]

    The module draws a square outline on a 32x32 canvas, one edge per
    quartile of a counter running from 0 to 100, and republishes the canvas
    as the page's favicon on every timer tick.

    Numbers.  JavaScript numbers are IEEE 754 binary64 values; coordinates
    are kept as Rocq's primitive floats, which are the same format, so
    [(CANVAS_SIZE / 25) * animationProgress] is computed with the rounding
    the browser performs.  The counter [animationProgress] only ever holds
    the integers 0..100 (it is assigned 0 and incremented), on which binary64
    arithmetic is exact; it is kept as a [Z] and converted with [num] where
    the source multiplies or subtracts.

    Objects.  The canvas, its 2D context, the button and the icon link are
    nodes of the page; the module's variables hold references to them, not
    copies.  The page owns one node of each kind at most (querySelector
    returns the first), so a reference is either [null] or [bound]. *)

From Stdlib Require Import ZArith List String Bool Lia.
From Stdlib Require Import PrimFloat Uint63.
Import ListNotations.
Local Open Scope Z_scope.
Local Open Scope list_scope.

(** ** Numbers *)

Definition num (z : Z) : float :=
  match z with
  | Z0 => PrimFloat.zero
  | Zpos _ => PrimFloat.of_uint63 (Uint63.of_Z z)
  | Zneg _ => PrimFloat.opp (PrimFloat.of_uint63 (Uint63.of_Z (- z)))
  end.

(** IEEE comparisons, as JavaScript's [==], [<=] and [<] on numbers
    (so [-0] and [0] are equal). *)
Definition feq (x y : float) : Prop := PrimFloat.eqb x y = true.
Definition fle (x y : float) : Prop := PrimFloat.leb x y = true.
Definition flt (x y : float) : Prop := PrimFloat.ltb x y = true.

(** ** The page: canvas, button, icon link *)

Record CanvasGradient := mkGradient {
  g_x0 : float; g_y0 : float; g_x1 : float; g_y1 : float;
  g_stops : list (float * string)
}.

Inductive style :=
| Color (c : string)
| Gradient (g : CanvasGradient).

Inductive path_cmd :=
| MoveTo (x y : float)
| LineTo (x y : float).

(** What has been painted on the bitmap since it was last blank. *)
Inductive paint :=
| Stroke (p : list path_cmd) (s : style) (w : float)
| Clear (x y w h : float).

Record Context2D := mkContext {
  strokeStyle : style;
  lineWidth : float;
  path : list path_cmd
}.

Definition default_context : Context2D :=
  {| strokeStyle := Color "#000000"; lineWidth := num 1; path := [] |}.

Record Canvas := mkCanvas {
  width : Z;
  height : Z;
  supports2d : bool;              (* does getContext("2d") yield a context *)
  ctx2d : option Context2D;       (* the context object, once created *)
  bitmap : list paint
}.

Inductive url :=
| Href (s : string)
| DataURL (mime : string) (w h : Z) (img : list paint).

Inductive listener := HandleButtonHover.
Inductive callback := AnimateFrame.

Record Button := mkButton {
  disabled : bool;                          (* hasAttribute("disabled") *)
  listeners : list (string * listener)
}.

Record Link := mkLink { href : url }.

Record Document := mkDocument {
  dom_canvas : option Canvas;     (* document.querySelector("canvas") *)
  dom_button : option Button;     (* document.querySelector("button") *)
  dom_icon : option Link          (* document.querySelector('link[rel*="icon"]') *)
}.

(** ** The module's private variables *)

Inductive binding := null | bound.

Record Vars := mkVars {
  canvas : binding;
  context : binding;
  button : binding;
  favicon : binding;
  animationProgress : Z;
  animationInterval : option Z
}.

(** ** The world: page, interval timers, console, module variables *)

Record Timer := mkTimer { t_callback : callback; t_delay : Z }.

Inductive level := LogLevel | ErrorLevel.

Record World := mkWorld {
  dom : Document;
  timers : list (Z * Timer);      (* the intervals that are scheduled *)
  next_timer : Z;                 (* the id setInterval hands out next *)
  console : list (level * string);
  vars : Vars
}.

Definition set_dom (d : Document) (w : World) : World :=
  {| dom := d; timers := timers w; next_timer := next_timer w;
     console := console w; vars := vars w |}.
Definition set_timers (ts : list (Z * Timer)) (w : World) : World :=
  {| dom := dom w; timers := ts; next_timer := next_timer w;
     console := console w; vars := vars w |}.
Definition set_next_timer (n : Z) (w : World) : World :=
  {| dom := dom w; timers := timers w; next_timer := n;
     console := console w; vars := vars w |}.
Definition set_console (c : list (level * string)) (w : World) : World :=
  {| dom := dom w; timers := timers w; next_timer := next_timer w;
     console := c; vars := vars w |}.
Definition set_vars (v : Vars) (w : World) : World :=
  {| dom := dom w; timers := timers w; next_timer := next_timer w;
     console := console w; vars := v |}.

Definition set_dom_canvas (c : option Canvas) (d : Document) : Document :=
  {| dom_canvas := c; dom_button := dom_button d; dom_icon := dom_icon d |}.
Definition set_dom_button (b : option Button) (d : Document) : Document :=
  {| dom_canvas := dom_canvas d; dom_button := b; dom_icon := dom_icon d |}.
Definition set_dom_icon (l : option Link) (d : Document) : Document :=
  {| dom_canvas := dom_canvas d; dom_button := dom_button d; dom_icon := l |}.

Definition set_canvas (x : binding) (v : Vars) : Vars :=
  {| canvas := x; context := context v; button := button v;
     favicon := favicon v; animationProgress := animationProgress v;
     animationInterval := animationInterval v |}.
Definition set_context (x : binding) (v : Vars) : Vars :=
  {| canvas := canvas v; context := x; button := button v;
     favicon := favicon v; animationProgress := animationProgress v;
     animationInterval := animationInterval v |}.
Definition set_button (x : binding) (v : Vars) : Vars :=
  {| canvas := canvas v; context := context v; button := x;
     favicon := favicon v; animationProgress := animationProgress v;
     animationInterval := animationInterval v |}.
Definition set_favicon (x : binding) (v : Vars) : Vars :=
  {| canvas := canvas v; context := context v; button := button v;
     favicon := x; animationProgress := animationProgress v;
     animationInterval := animationInterval v |}.
Definition set_animationProgress (p : Z) (v : Vars) : Vars :=
  {| canvas := canvas v; context := context v; button := button v;
     favicon := favicon v; animationProgress := p;
     animationInterval := animationInterval v |}.
Definition set_animationInterval (h : option Z) (v : Vars) : Vars :=
  {| canvas := canvas v; context := context v; button := button v;
     favicon := favicon v; animationProgress := animationProgress v;
     animationInterval := h |}.

(** ** Statements: state passing with exceptions

    A statement runs in a world and completes normally with a value or
    throws; either way it leaves a world behind (mutations made before a
    throw persist, as in JavaScript). *)

Inductive completion (A : Type) :=
| Normal (a : A)
| Throw (e : string).
Arguments Normal {A} a.
Arguments Throw {A} e.

Definition js (A : Type) : Type := World -> completion A * World.

Definition ret {A} (a : A) : js A := fun w => (Normal a, w).

Definition bind {A B} (m : js A) (k : A -> js B) : js B :=
  fun w =>
    match m w with
    | (Normal a, w') => k a w'
    | (Throw e, w') => (Throw e, w')
    end.

Definition throw {A} (e : string) : js A := fun w => (Throw e, w).

Declare Scope js_scope.
Delimit Scope js_scope with js.
Notation "x <- m ;; k" := (bind m (fun x => k))
  (at level 100, m at next level, right associativity) : js_scope.
Notation "m ;; k" := (bind m (fun _ => k))
  (at level 100, right associativity) : js_scope.
Local Open Scope js_scope.

Definition TypeError : string := "TypeError".

Definition get {A} (f : Vars -> A) : js A := fun w => (Normal (f (vars w)), w).
Definition assign (f : Vars -> Vars) : js unit :=
  fun w => (Normal tt, set_vars (f (vars w)) w).

Definition is_null (b : binding) : bool :=
  match b with null => true | bound => false end.

Definition node_of {A} (o : option A) : binding :=
  match o with Some _ => bound | None => null end.

(** *** console *)

Definition console_error (s : string) : js unit :=
  fun w => (Normal tt, set_console (console w ++ [(ErrorLevel, s)]) w).
Definition console_log (s : string) : js unit :=
  fun w => (Normal tt, set_console (console w ++ [(LogLevel, s)]) w).

(** *** document.querySelector *)

Definition querySelector_canvas : js binding :=
  fun w => (Normal (node_of (dom_canvas (dom w))), w).
Definition querySelector_button : js binding :=
  fun w => (Normal (node_of (dom_button (dom w))), w).
Definition querySelector_icon : js binding :=
  fun w => (Normal (node_of (dom_icon (dom w))), w).

(** *** The canvas element

    A member access through a null reference throws. *)

Definition on_canvas {A} (r : binding) (f : Canvas -> A * Canvas) : js A :=
  fun w =>
    match r, dom_canvas (dom w) with
    | bound, Some c =>
        let (a, c') := f c in
        (Normal a, set_dom (set_dom_canvas (Some c') (dom w)) w)
    | _, _ => (Throw TypeError, w)
    end.

(** Setting a dimension resizes the bitmap, which blanks it and resets the
    context's drawing state. *)
Definition reset_context (c : Canvas) : option Context2D :=
  match ctx2d c with
  | Some _ => Some default_context
  | None => None
  end.

Definition canvas_set_width (n : Z) (r : binding) : js unit :=
  on_canvas r (fun c =>
    (tt, {| width := n; height := height c; supports2d := supports2d c;
            ctx2d := reset_context c; bitmap := [] |})).
Definition canvas_set_height (n : Z) (r : binding) : js unit :=
  on_canvas r (fun c =>
    (tt, {| width := width c; height := n; supports2d := supports2d c;
            ctx2d := reset_context c; bitmap := [] |})).

(** [canvas.getContext("2d")]: the canvas' context object (created on the
    first call), or null where 2D drawing is not supported. *)
Definition canvas_getContext (r : binding) : js binding :=
  on_canvas r (fun c =>
    if supports2d c then
      (bound,
       {| width := width c; height := height c; supports2d := true;
          ctx2d := Some (match ctx2d c with
                         | Some cx => cx
                         | None => default_context
                         end);
          bitmap := bitmap c |})
    else (null, c)).

Definition canvas_toDataURL (mime : string) (r : binding) : js url :=
  on_canvas r (fun c => (DataURL mime (width c) (height c) (bitmap c), c)).

(** *** The 2D context *)

Definition on_context {A} (r : binding)
    (f : Canvas -> Context2D -> A * Context2D * list paint) : js A :=
  fun w =>
    match r, dom_canvas (dom w) with
    | bound, Some c =>
        match ctx2d c with
        | Some cx =>
            let '(a, cx', bm) := f c cx in
            (Normal a,
             set_dom (set_dom_canvas
               (Some {| width := width c; height := height c;
                        supports2d := supports2d c;
                        ctx2d := Some cx'; bitmap := bm |}) (dom w)) w)
        | None => (Throw TypeError, w)
        end
    | _, _ => (Throw TypeError, w)
    end.

Definition covers (c : Canvas) (x y w h : float) : bool :=
  PrimFloat.leb x (num 0) && PrimFloat.leb y (num 0)
  && PrimFloat.leb (num (width c)) (PrimFloat.add x w)
  && PrimFloat.leb (num (height c)) (PrimFloat.add y h).

Definition clearRect (x y w h : float) (r : binding) : js unit :=
  on_context r (fun c cx =>
    (tt, cx, if covers c x y w h then [] else bitmap c ++ [Clear x y w h])).

Definition beginPath (r : binding) : js unit :=
  on_context r (fun c cx =>
    (tt, {| strokeStyle := strokeStyle cx; lineWidth := lineWidth cx;
            path := [] |}, bitmap c)).

Definition moveTo (x y : float) (r : binding) : js unit :=
  on_context r (fun c cx =>
    (tt, {| strokeStyle := strokeStyle cx; lineWidth := lineWidth cx;
            path := path cx ++ [MoveTo x y] |}, bitmap c)).

Definition lineTo (x y : float) (r : binding) : js unit :=
  on_context r (fun c cx =>
    (tt, {| strokeStyle := strokeStyle cx; lineWidth := lineWidth cx;
            path := path cx ++ [LineTo x y] |}, bitmap c)).

Definition stroke (r : binding) : js unit :=
  on_context r (fun c cx =>
    (tt, cx, bitmap c ++ [Stroke (path cx) (strokeStyle cx) (lineWidth cx)])).

Definition createLinearGradient (x0 y0 x1 y1 : float)
  (r : binding) : js CanvasGradient :=
  on_context r (fun c cx => (mkGradient x0 y0 x1 y1 [], cx, bitmap c)).

Definition addColorStop (g : CanvasGradient) (o : float) (c : string)
  : CanvasGradient :=
  mkGradient (g_x0 g) (g_y0 g) (g_x1 g) (g_y1 g) (g_stops g ++ [(o, c)]).

Definition set_strokeStyle (s : style) (r : binding) : js unit :=
  on_context r (fun c cx =>
    (tt, {| strokeStyle := s; lineWidth := lineWidth cx; path := path cx |},
     bitmap c)).

Definition set_lineWidth (n : float) (r : binding) : js unit :=
  on_context r (fun c cx =>
    (tt, {| strokeStyle := strokeStyle cx; lineWidth := n; path := path cx |},
     bitmap c)).

(** *** The icon link and the button *)

Definition link_set_href (u : url) (r : binding) : js unit :=
  fun w =>
    match r, dom_icon (dom w) with
    | bound, Some _ =>
        (Normal tt, set_dom (set_dom_icon (Some (mkLink u)) (dom w)) w)
    | _, _ => (Throw TypeError, w)
    end.

Definition on_button {A} (r : binding) (f : Button -> A * Button) : js A :=
  fun w =>
    match r, dom_button (dom w) with
    | bound, Some b =>
        let (a, b') := f b in
        (Normal a, set_dom (set_dom_button (Some b') (dom w)) w)
    | _, _ => (Throw TypeError, w)
    end.

Definition same_listener (x y : string * listener) : bool :=
  String.eqb (fst x) (fst y)
  && match snd x, snd y with HandleButtonHover, HandleButtonHover => true end.

(** addEventListener ignores a listener that is already registered for the
    same event type. *)
Definition addEventListener (ty : string) (l : listener)
  (r : binding) : js unit :=
  on_button r (fun b =>
    (tt, if existsb (same_listener (ty, l)) (listeners b) then b
         else {| disabled := disabled b;
                 listeners := listeners b ++ [(ty, l)] |})).

Definition setAttribute_disabled (r : binding) : js unit :=
  on_button r (fun b =>
    (tt, {| disabled := true; listeners := listeners b |})).
Definition hasAttribute_disabled (r : binding) : js bool :=
  on_button r (fun b => (disabled b, b)).
Definition removeAttribute_disabled (r : binding) : js unit :=
  on_button r (fun b =>
    (tt, {| disabled := false; listeners := listeners b |})).

(** *** Interval timers *)

Definition setInterval (cb : callback) (ms : Z) : js Z :=
  fun w =>
    let h := next_timer w in
    (Normal h,
     set_next_timer (h + 1) (set_timers (timers w ++ [(h, mkTimer cb ms)]) w)).

(** clearInterval of null, or of an id that is not scheduled, does nothing. *)
Definition clearInterval (h : option Z) : js unit :=
  fun w =>
    match h with
    | Some i =>
        (Normal tt,
         set_timers (filter (fun t => negb (fst t =? i)) (timers w)) w)
    | None => (Normal tt, w)
    end.

(** [v .> m]: the method call [v.m(...)] through the module variable [v]. *)
Notation "v .> m" := (bind (get v) m) (at level 60, no associativity) : js_scope.

(** ** The module: [FaviconAnimator] *)

Module FaviconAnimator.

Definition CANVAS_SIZE : Z := 32.
Definition ANIMATION_DURATION : Z := 100.
Definition ANIMATION_SPEED : Z := 60.
Definition GRADIENT_START_COLOR : string := "#c7f0fe".
Definition GRADIENT_END_COLOR : string := "#56d3c9".

Definition setupCanvas : js bool :=
  c <- get canvas ;;
  if is_null c then
    (console_error "Canvas element not found" ;; ret false)
  else
    (cx <- canvas .> canvas_getContext ;;
     assign (set_context cx) ;;
     cx <- get context ;;
     if is_null cx then
       (console_error "Canvas 2D context not supported" ;; ret false)
     else
       (gradient <- context .> createLinearGradient
                      (num 0) (num 0) (num CANVAS_SIZE) (num CANVAS_SIZE) ;;
        let gradient := addColorStop gradient (num 0) GRADIENT_START_COLOR in
        let gradient := addColorStop gradient (num 1) GRADIENT_END_COLOR in
        context .> set_strokeStyle (Gradient gradient) ;;
        context .> set_lineWidth (num 8) ;;
        ret true)).

(** [(CANVAS_SIZE / 25)], the length drawn per unit of progress. *)
Definition per_step : float := PrimFloat.div (num CANVAS_SIZE) (num 25).

Definition animateFrame : js unit :=
  context .> clearRect (num 0) (num 0) (num CANVAS_SIZE) (num CANVAS_SIZE) ;;
  context .> beginPath ;;
  p <- get animationProgress ;;
  (if p <=? 25 then
     let currentWidth := PrimFloat.mul per_step (num p) in
     context .> moveTo (num 0) (num 0) ;;
     context .> lineTo currentWidth (num 0)
   else if (25 <? p) && (p <=? 50) then
     context .> moveTo (num 0) (num 0) ;;
     context .> lineTo (num CANVAS_SIZE) (num 0) ;;
     let currentHeight :=
       PrimFloat.mul per_step (PrimFloat.sub (num p) (num 25)) in
     context .> moveTo (num CANVAS_SIZE) (num 0) ;;
     context .> lineTo (num CANVAS_SIZE) currentHeight
   else if (50 <? p) && (p <=? 75) then
     context .> moveTo (num 0) (num 0) ;;
     context .> lineTo (num CANVAS_SIZE) (num 0) ;;
     context .> moveTo (num CANVAS_SIZE) (num 0) ;;
     context .> lineTo (num CANVAS_SIZE) (num CANVAS_SIZE) ;;
     let currentWidth :=
       PrimFloat.opp
         (PrimFloat.mul per_step (PrimFloat.sub (num p) (num 75))) in
     context .> moveTo (num CANVAS_SIZE) (num CANVAS_SIZE) ;;
     context .> lineTo currentWidth (num CANVAS_SIZE)
   else if (75 <? p) && (p <=? ANIMATION_DURATION) then
     context .> moveTo (num 0) (num 0) ;;
     context .> lineTo (num CANVAS_SIZE) (num 0) ;;
     context .> moveTo (num CANVAS_SIZE) (num 0) ;;
     context .> lineTo (num CANVAS_SIZE) (num CANVAS_SIZE) ;;
     context .> moveTo (num CANVAS_SIZE) (num CANVAS_SIZE) ;;
     context .> lineTo (num 0) (num CANVAS_SIZE) ;;
     let currentHeight :=
       PrimFloat.opp
         (PrimFloat.mul per_step
            (PrimFloat.sub (num p) (num ANIMATION_DURATION))) in
     context .> moveTo (num 0) (num CANVAS_SIZE) ;;
     context .> lineTo (num 0) currentHeight
   else ret tt) ;;
  context .> stroke ;;
  u <- canvas .> canvas_toDataURL "image/png" ;;
  favicon .> link_set_href u ;;
  p <- get animationProgress ;;
  if p =? ANIMATION_DURATION then
    (h <- get animationInterval ;;
     clearInterval h ;;
     assign (set_animationInterval None))
  else
    assign (set_animationProgress (p + 1)).

(** [handleButtonHover] is a [function], so [this] is the element the
    listener was registered on. *)
Definition handleButtonHover (this : binding) : js unit :=
  assign (set_animationProgress 0) ;;
  h <- setInterval AnimateFrame ANIMATION_SPEED ;;
  assign (set_animationInterval (Some h)) ;;
  setAttribute_disabled this.

Definition setupButton : js unit :=
  b <- get button ;;
  if is_null b then console_error "Button element not found"
  else button .> addEventListener "mouseenter" HandleButtonHover.

Definition resetButton : js unit :=
  b <- get button ;;
  if is_null b then ret tt
  else
    (d <- button .> hasAttribute_disabled ;;
     if d then button .> removeAttribute_disabled else ret tt).

Definition init : js bool :=
  c <- querySelector_canvas ;; assign (set_canvas c) ;;
  b <- querySelector_button ;; assign (set_button b) ;;
  f <- querySelector_icon ;; assign (set_favicon f) ;;
  c <- get canvas ;; b <- get button ;; f <- get favicon ;;
  if is_null c || is_null b || is_null f then
    (console_error "Required DOM elements not found" ;; ret false)
  else
    (canvas .> canvas_set_width CANVAS_SIZE ;;
     canvas .> canvas_set_height CANVAS_SIZE ;;
     ok <- setupCanvas ;;
     if negb ok then ret false
     else
       (setupButton ;;
        resetButton ;;
        console_log "FaviconAnimator initialized successfully" ;;
        ret true)).

End FaviconAnimator.

(** ** The browser: page load, pointer events, timer ticks *)

Definition run_listener (l : listener) : binding -> js unit :=
  match l with HandleButtonHover => FaviconAnimator.handleButtonHover end.

Definition run_callback (c : callback) : js unit :=
  match c with AnimateFrame => FaviconAnimator.animateFrame end.

(** The world a task leaves behind; an exception thrown by a listener or a
    timer callback is reported and goes no further. *)
Definition after {A} (m : js A) (w : World) : World := snd (m w).

(** Dispatching an event at the button invokes, with [this] the button, the
    listeners that were registered for it when the dispatch began. *)
Definition dispatch (ty : string) (w : World) : World :=
  match dom_button (dom w) with
  | Some b =>
      fold_left
        (fun w' l =>
           if String.eqb (fst l) ty then after (run_listener (snd l) bound) w'
           else w')
        (listeners b) w
  | None => w
  end.

Definition find_timer (h : Z) (ts : list (Z * Timer)) : option Timer :=
  match find (fun t => fst t =? h) ts with
  | Some t => Some (snd t)
  | None => None
  end.

(** A timer fires only while it is scheduled. *)
Definition fire (h : Z) (w : World) : World :=
  match find_timer h (timers w) with
  | Some t => after (run_callback (t_callback t)) w
  | None => w
  end.

Inductive event :=
| Load                 (* the page's script calls FaviconAnimator.init() *)
| MouseEnter           (* mouseenter is dispatched at the button *)
| Tick (h : Z).        (* the interval with id h elapses *)

Definition react (e : event) (w : World) : World :=
  match e with
  | Load => after FaviconAnimator.init w
  | MouseEnter => dispatch "mouseenter" w
  | Tick h => fire h w
  end.

Definition run (es : list event) (w : World) : World :=
  fold_left (fun w' e => react e w') es w.

(** The world in which the module has just been evaluated: variables at their
    initial values, nothing scheduled. *)
Definition page_load (d : Document) : World :=
  {| dom := d; timers := []; next_timer := 1; console := [];
     vars := {| canvas := null; context := null; button := null;
                favicon := null; animationProgress := 0;
                animationInterval := None |} |}.

(** ** Observations *)

Definition point : Type := float * float.
Definition segment : Type := point * point.

(** The line segments of a path: [MoveTo] starts a subpath, [LineTo] joins
    the current point to its target (and only moves there when the path has
    no current point yet). *)
Fixpoint segments_from (cur : option point) (cs : list path_cmd)
  : list segment :=
  match cs with
  | [] => []
  | MoveTo x y :: r => segments_from (Some (x, y)) r
  | LineTo x y :: r =>
      match cur with
      | Some c => (c, (x, y)) :: segments_from (Some (x, y)) r
      | None => segments_from (Some (x, y)) r
      end
  end.

Definition segments (cs : list path_cmd) : list segment :=
  segments_from None cs.

(** The length of a horizontal or vertical segment. *)
Definition seg_length (s : segment) : float :=
  let '((x1, y1), (x2, y2)) := s in
  PrimFloat.add (PrimFloat.abs (PrimFloat.sub x2 x1))
                (PrimFloat.abs (PrimFloat.sub y2 y1)).

Definition same_point (p q : point) : Prop :=
  feq (fst p) (fst q) /\ feq (snd p) (snd q).

Definition same_segment (s t : segment) : Prop :=
  same_point (fst s) (fst t) /\ same_point (snd s) (snd t).

Definition the_canvas (w : World) : option Canvas := dom_canvas (dom w).
Definition the_button (w : World) : option Button := dom_button (dom w).
Definition the_icon (w : World) : option Link := dom_icon (dom w).

(** The path the context currently holds. *)
Definition current_path (w : World) : list path_cmd :=
  match the_canvas w with
  | Some c => match ctx2d c with Some cx => path cx | None => [] end
  | None => []
  end.

Definition progress (w : World) : Z := animationProgress (vars w).
Definition handle (w : World) : option Z := animationInterval (vars w).

(** A page with everything the module needs, and one without 2D support. *)
Definition plain_canvas (has2d : bool) : Canvas :=
  {| width := 300; height := 150; supports2d := has2d; ctx2d := None;
     bitmap := [] |}.
Definition plain_button : Button := {| disabled := false; listeners := [] |}.
Definition plain_icon : Link := {| href := Href "favicon.ico" |}.
Definition full_page : Document :=
  {| dom_canvas := Some (plain_canvas true); dom_button := Some plain_button;
     dom_icon := Some plain_icon |}.

(** ** What a frame does to an initialised world *)

Import FaviconAnimator.

(** The module is initialised: its variables are bound to the page's nodes,
    the canvas is [CANVAS_SIZE] square and its 2D context exists. *)
Definition ready (w : World) : bool :=
  match canvas (vars w), context (vars w), button (vars w),
        favicon (vars w), the_canvas w, the_button w, the_icon w with
  | bound, bound, bound, bound, Some c, Some _, Some _ =>
      (width c =? CANVAS_SIZE) && (height c =? CANVAS_SIZE) && supports2d c
      && match ctx2d c with Some _ => true | None => false end
  | _, _, _, _, _, _, _ => false
  end.

(** The path commands [animateFrame] issues between [beginPath] and
    [stroke], by the branch the counter selects. *)
Definition outline (p : Z) : list path_cmd :=
  let s := num CANVAS_SIZE in
  let o := num 0 in
  if p <=? 25 then
    [MoveTo o o; LineTo (PrimFloat.mul per_step (num p)) o]
  else if (25 <? p) && (p <=? 50) then
    [MoveTo o o; LineTo s o;
     MoveTo s o;
     LineTo s (PrimFloat.mul per_step (PrimFloat.sub (num p) (num 25)))]
  else if (50 <? p) && (p <=? 75) then
    [MoveTo o o; LineTo s o; MoveTo s o; LineTo s s;
     MoveTo s s;
     LineTo (PrimFloat.opp
               (PrimFloat.mul per_step (PrimFloat.sub (num p) (num 75)))) s]
  else if (75 <? p) && (p <=? ANIMATION_DURATION) then
    [MoveTo o o; LineTo s o; MoveTo s o; LineTo s s; MoveTo s s; LineTo o s;
     MoveTo o s;
     LineTo o (PrimFloat.opp
                 (PrimFloat.mul per_step
                    (PrimFloat.sub (num p) (num ANIMATION_DURATION))))]
  else [].

Definition unschedule (h : option Z) (ts : list (Z * Timer))
  : list (Z * Timer) :=
  match h with
  | Some i => filter (fun t => negb (fst t =? i)) ts
  | None => ts
  end.

Definition frame (w : World) : World :=
  match the_canvas w with
  | Some c =>
      match ctx2d c with
      | Some cx =>
          let p := progress w in
          let bm := [Stroke (outline p) (strokeStyle cx) (lineWidth cx)] in
          {| dom :=
               {| dom_canvas :=
                    Some {| width := width c; height := height c;
                            supports2d := supports2d c;
                            ctx2d := Some {| strokeStyle := strokeStyle cx;
                                             lineWidth := lineWidth cx;
                                             path := outline p |};
                            bitmap := bm |};
                  dom_button := the_button w;
                  dom_icon :=
                    Some (mkLink (DataURL "image/png" (width c) (height c) bm))
               |};
             timers := if p =? ANIMATION_DURATION
                       then unschedule (handle w) (timers w) else timers w;
             next_timer := next_timer w;
             console := console w;
             vars := if p =? ANIMATION_DURATION
                     then set_animationInterval None (vars w)
                     else set_animationProgress (p + 1) (vars w) |}
      | None => w
      end
  | None => w
  end.

(** ** What the trigger handler and [init] do *)

Definition hovered (w : World) : World :=
  {| dom := set_dom_button
              (match the_button w with
               | Some b => Some {| disabled := true; listeners := listeners b |}
               | None => None
               end) (dom w);
     timers := timers w ++ [(next_timer w, mkTimer AnimateFrame ANIMATION_SPEED)];
     next_timer := next_timer w + 1;
     console := console w;
     vars := set_animationInterval (Some (next_timer w))
               (set_animationProgress 0 (vars w)) |}.

Definition the_gradient : CanvasGradient :=
  {| g_x0 := num 0; g_y0 := num 0;
     g_x1 := num CANVAS_SIZE; g_y1 := num CANVAS_SIZE;
     g_stops := [(num 0, GRADIENT_START_COLOR); (num 1, GRADIENT_END_COLOR)] |}.

Definition styled_context : Context2D :=
  {| strokeStyle := Gradient the_gradient; lineWidth := num 8; path := [] |}.

Definition the_listener : string * listener := ("mouseenter"%string, HandleButtonHover).

Definition with_listener (b : Button) : Button :=
  {| disabled := false;
     listeners := if existsb (same_listener the_listener) (listeners b)
                  then listeners b else listeners b ++ [the_listener] |}.

(** The module's variables after the three queries of [init]. *)
Definition queried (w : World) : Vars :=
  set_favicon (node_of (the_icon w))
    (set_button (node_of (the_button w))
       (set_canvas (node_of (the_canvas w)) (vars w))).

Definition init_absent (w : World) : World :=
  set_console (console w ++ [(ErrorLevel, "Required DOM elements not found"%string)])
    (set_vars (queried w) w).

Definition init_no2d (c : Canvas) (w : World) : World :=
  {| dom := set_dom_canvas
              (Some {| width := CANVAS_SIZE; height := CANVAS_SIZE;
                       supports2d := false; ctx2d := reset_context c;
                       bitmap := [] |}) (dom w);
     timers := timers w; next_timer := next_timer w;
     console := console w ++ [(ErrorLevel, "Canvas 2D context not supported"%string)];
     vars := set_context null (queried w) |}.

Definition init_full (b : Button) (l : Link) (w : World) : World :=
  {| dom := {| dom_canvas :=
                 Some {| width := CANVAS_SIZE; height := CANVAS_SIZE;
                         supports2d := true; ctx2d := Some styled_context;
                         bitmap := [] |};
               dom_button := Some (with_listener b);
               dom_icon := Some l |};
     timers := timers w; next_timer := next_timer w;
     console := console w
                ++ [(LogLevel, "FaviconAnimator initialized successfully"%string)];
     vars := set_context bound (queried w) |}.

(** ** Runs of the page *)

(** No listener of the module can be on the button before the module has
    run: [handleButtonHover] is private to its closure. *)
Definition fresh (d : Document) : bool :=
  match dom_button d with
  | Some b => match listeners b with [] => true | _ :: _ => false end
  | None => true
  end.

Definition registered (w : World) : bool :=
  match the_button w with
  | Some b =>
      match listeners b with
      | [(ty, HandleButtonHover)] => String.eqb ty "mouseenter"
      | _ => false
      end
  | None => false
  end.

Definition unregistered (w : World) : bool :=
  match the_button w with
  | Some b => match listeners b with [] => true | _ :: _ => false end
  | None => true
  end.

Definition scheduled (h : Z) (w : World) : bool :=
  match find_timer h (timers w) with Some _ => true | None => false end.

Definition is_disabled (w : World) : bool :=
  match the_button w with Some b => disabled b | None => false end.

(** A session: the page loads, its script calls [init] once, and from then
    on timers tick and the pointer enters the button; a browser that does not
    deliver pointer events to a disabled control only lets the pointer in
    while the button is enabled. *)
Inductive session (d : Document) : World -> Prop :=
| session_load : session d (react Load (page_load d))
| session_tick w h : session d w -> session d (react (Tick h) w)
| session_hover w :
    session d w -> is_disabled w = false -> session d (react MouseEnter w).

(** The world of [full_page] after [init], one hover and [n] ticks. *)
Definition at_tick (n : nat) : World :=
  run ([Load; MouseEnter] ++ repeat (Tick 1) n) (page_load full_page).

(** ** The square *)

Definition side : float := num CANVAS_SIZE.
Definition top_edge : segment := ((num 0, num 0), (side, num 0)).
Definition right_edge : segment := ((side, num 0), (side, side)).
Definition bottom_edge : segment := ((side, side), (num 0, side)).
Definition left_edge : segment := ((num 0, side), (num 0, num 0)).

Definition clamp (lo hi x : float) : float :=
  if PrimFloat.ltb x lo then lo else if PrimFloat.ltb hi x then hi else x.

(** The coordinate the third and fourth branches compute:
    [-((CANVAS_SIZE / 25) * (p - q))]. *)
Definition back_from (q p : Z) : float :=
  PrimFloat.opp (PrimFloat.mul per_step (PrimFloat.sub (num p) (num q))).

Fixpoint all_from (lo : Z) (n : nat) (f : Z -> bool) : bool :=
  match n with
  | O => true
  | S k => f lo && all_from (lo + 1) k f
  end.

(** ** Invariants *)

(** Of every run. *)

Definition Inv (w : World) : Prop :=
  0 <= progress w <= ANIMATION_DURATION
  /\ ((ready w = true /\ registered w = true)
      \/ (timers w = [] /\ unregistered w = true)).

(** Of a session. *)

Definition one_timer (w : World) : Prop :=
  (timers w = [] /\ handle w = None)
  \/ (exists h,
        timers w = [(h, mkTimer AnimateFrame ANIMATION_SPEED)]
        /\ handle w = Some h /\ is_disabled w = true).

Definition SInv (w : World) : Prop := Inv w /\ one_timer w.

(** ** Checks on the drawn path *)

Definition drawn (w : World) : list paint :=
  match the_canvas w with Some c => bitmap c | None => [] end.

(** The numeric facts are checked on each value of the counter. *)
Definition top_check (p : Z) : bool :=
  let len := PrimFloat.mul per_step (num p) in
  PrimFloat.eqb (seg_length ((num 0, num 0), (len, num 0))) len
  && negb (PrimFloat.ltb len (num 0)) && negb (PrimFloat.ltb side len)
  && PrimFloat.leb (num 0) len && PrimFloat.leb len side.

(** [(size/25) x (progress - q)], which the specification gives as the
    partial segment's length in the third and fourth quartiles. *)
Definition claimed_length (q p : Z) : float :=
  PrimFloat.mul per_step (PrimFloat.sub (num p) (num q)).

(** The third quartile as the specification words it (C3): after the top
    and right edges, a segment from the bottom-right corner whose length is
    [(size/25) x (progress - 75)], read as the signed value or as its
    magnitude. *)
Definition bottom_as_claimed (w : World) : Prop :=
  exists s,
    segments (current_path (after animateFrame w))
    = [top_edge; right_edge; s]
    /\ fst s = (side, side)
    /\ (feq (seg_length s) (claimed_length 75 (progress w))
        \/ feq (seg_length s)
                (PrimFloat.abs (claimed_length 75 (progress w)))).

(** The fourth quartile as the specification words it (C4). *)
Definition left_as_claimed (w : World) : Prop :=
  exists s,
    segments (current_path (after animateFrame w))
    = [top_edge; right_edge; bottom_edge; s]
    /\ fst s = (num 0, side)
    /\ (feq (seg_length s) (claimed_length 100 (progress w))
        \/ feq (seg_length s)
                (PrimFloat.abs (claimed_length 100 (progress w)))).

Definition back_check (q p : Z) : bool :=
  let x := back_from q p in
  PrimFloat.leb (num 0) x && PrimFloat.ltb x side
  && PrimFloat.eqb (seg_length ((side, side), (x, side))) (PrimFloat.sub side x)
  && PrimFloat.eqb (seg_length ((num 0, side), (num 0, x))) (PrimFloat.sub side x).

(** The segments of the path a frame draws, and the last of them (the
    partial segment of the quartile in progress). *)
Definition frame_segments (w : World) : list segment :=
  segments (current_path (after animateFrame w)).

Definition partial_segment (w : World) : option segment :=
  nth_error (frame_segments w) (List.length (frame_segments w) - 1).

(** The tick after a boundary as the specification words it (C6): the
    partial segment has length 0. *)
Definition starts_at_zero (w : World) : Prop :=
  exists s, partial_segment w = Some s /\ feq (seg_length s) (num 0).

Definition full_length (s : segment) : Prop := seg_length s = side.

(** Pages that lack a node or 2D drawing. *)

Definition absent (w : World) : Prop :=
  the_canvas w = None \/ the_button w = None \/ the_icon w = None.

(** A page without a canvas. *)
Definition page_without_canvas : Document :=
  {| dom_canvas := None; dom_button := Some plain_button;
     dom_icon := Some plain_icon |}.

(** A page whose canvas cannot give a 2D context. *)
Definition page_without_2d : Document :=
  {| dom_canvas := Some (plain_canvas false); dom_button := Some plain_button;
     dom_icon := Some plain_icon |}.

(** ** Two runs at once *)

(** The world of [full_page] after [init], two pointer entries and 100 ticks
    of the first interval: the counter is at 100, both intervals are
    scheduled and the handle names the second. *)
Definition two_runs_at_100 : World :=
  run ([Load; MouseEnter; MouseEnter] ++ repeat (Tick 1) 100)
    (page_load full_page).

(** The last frame as the specification words it (C1): once it has run, no
    interval is left to tick. *)
Definition no_further_ticks (w : World) : Prop :=
  forall h, scheduled h (after animateFrame w) = false.

(** The tick at 100 as the specification words it (C2): the interval that
    ticked is not scheduled any more. *)
Definition loop_stops (h : Z) (w : World) : Prop :=
  scheduled h (react (Tick h) w) = false.

(** ** Further observations *)

(** The page has the three nodes and its canvas can give a 2D context. *)
Definition complete (d : Document) : bool :=
  match dom_canvas d, dom_button d, dom_icon d with
  | Some c, Some _, Some _ => supports2d c
  | _, _, _ => false
  end.

(** The console entry a call of [init] ends with, by the return it takes. *)
Definition init_entry (d : Document) : level * string :=
  match dom_canvas d, dom_button d, dom_icon d with
  | Some c, Some _, Some _ =>
      if supports2d c
      then (LogLevel, "FaviconAnimator initialized successfully"%string)
      else (ErrorLevel, "Canvas 2D context not supported"%string)
  | _, _, _ => (ErrorLevel, "Required DOM elements not found"%string)
  end.

(** The stroke style and line width of the canvas' context. *)
Definition context_style (w : World) : option (style * float) :=
  match the_canvas w with
  | Some c =>
      match ctx2d c with
      | Some cx => Some (strokeStyle cx, lineWidth cx)
      | None => None
      end
  | None => None
  end.

Definition styled (w : World) : Prop :=
  ready w = true -> context_style w = Some (Gradient the_gradient, num 8).

(** Timer ids: every scheduled id was handed out already, and the handle,
    when set, names a scheduled interval. *)
Definition ids_ok (w : World) : Prop :=
  (forall h, scheduled h w = true -> h < next_timer w)
  /\ (forall h, handle w = Some h -> scheduled h w = true).

Definition RInv (w : World) : Prop := Inv w /\ ids_ok w /\ styled w.

(** The second quartile's numeric facts, for one value of the counter. *)
Definition right_check (p : Z) : bool :=
  let len := PrimFloat.mul per_step (PrimFloat.sub (num p) (num 25)) in
  PrimFloat.eqb (seg_length ((side, num 0), (side, len))) len
  && PrimFloat.ltb (num 0) len && PrimFloat.leb len side.

(** A run in flight on the first interval, [n] frames in. *)
Definition running (n : Z) (w : World) : Prop :=
  ready w = true
  /\ timers w = [(1, mkTimer AnimateFrame ANIMATION_SPEED)]
  /\ handle w = Some 1 /\ progress w = n /\ is_disabled w = true
  /\ context_style w = Some (Gradient the_gradient, num 8).

(** A page on which [init] cannot succeed stays inert. *)
Definition inert (i : option Link) (w : World) : Prop :=
  complete (dom w) = false /\ timers w = [] /\ unregistered w = true
  /\ the_icon w = i /\ progress w = 0 /\ handle w = None.

(** In a session the first pointer entry is the only one that starts a run. *)
Definition one_run (w : World) : Prop :=
  (next_timer w = 1 /\ timers w = [] /\ handle w = None)
  \/ (next_timer w = 2 /\ is_disabled w = true).

(** * Proofs *)

(** ** A frame on an initialised world *)

Lemma ready_inv (w : World) :
  ready w = true ->
  exists cx bm b l ts n co p h,
    w = {| dom := {| dom_canvas :=
                       Some {| width := CANVAS_SIZE; height := CANVAS_SIZE;
                               supports2d := true; ctx2d := Some cx;
                               bitmap := bm |};
                     dom_button := Some b; dom_icon := Some l |};
           timers := ts; next_timer := n; console := co;
           vars := {| canvas := bound; context := bound; button := bound;
                      favicon := bound; animationProgress := p;
                      animationInterval := h |} |}.
Proof.
  destruct w as [[c b l] ts n co [vc vx vb vf p h]].
  unfold ready, the_canvas, the_button, the_icon; simpl.
  destruct vc, vx, vb, vf; try discriminate.
  destruct c as [[wd ht sup [cx|] bm]|]; try discriminate;
    destruct b as [b|]; try discriminate;
    destruct l as [l|]; try discriminate; simpl;
    rewrite ?andb_false_r; try discriminate.
  intros H. apply andb_prop in H as [H _]. apply andb_prop in H as [H H3].
  apply andb_prop in H as [H1 H2].
  apply Z.eqb_eq in H1, H2. subst wd ht sup.
  now exists cx, bm, b, l, ts, n, co, p, h.
Qed.

Lemma covers_canvas (sup : bool) (cx : option Context2D) (bm : list paint) :
  covers {| width := CANVAS_SIZE; height := CANVAS_SIZE; supports2d := sup;
            ctx2d := cx; bitmap := bm |}
         (num 0) (num 0) (num CANVAS_SIZE) (num CANVAS_SIZE) = true.
Proof. reflexivity. Qed.

Lemma animateFrame_ready (w : World) :
  ready w = true -> animateFrame w = (Normal tt, frame w).
Proof.
  intros H. destruct (ready_inv w H)
    as (cx & bm & b & l & ts & n & co & p & h & ->).
  destruct cx as [sty lw pth].
  unfold animateFrame, frame, outline, progress, handle, the_canvas, the_button.
  cbv [bind get assign clearRect beginPath moveTo lineTo stroke on_context
       canvas_toDataURL on_canvas link_set_href clearInterval ret unschedule
       dom dom_canvas dom_button dom_icon vars context canvas favicon
       animationProgress animationInterval set_dom set_dom_canvas set_dom_icon
       set_vars set_timers set_animationInterval set_animationProgress
       ctx2d width height supports2d bitmap strokeStyle lineWidth path
       timers next_timer console button app].
  rewrite covers_canvas.
  destruct (p <=? 25); [| destruct ((25 <? p) && (p <=? 50));
    [| destruct ((50 <? p) && (p <=? 75));
      [| destruct ((75 <? p) && (p <=? ANIMATION_DURATION)) ] ] ];
    cbv [app]; destruct (p =? ANIMATION_DURATION); try destruct h; reflexivity.
Qed.

(** ** [init], case by case *)

Lemma init_when_absent (w : World) :
  the_canvas w = None \/ the_button w = None \/ the_icon w = None ->
  init w = (Normal false, init_absent w).
Proof.
  destruct w as [[c b l] ts n co v].
  unfold the_canvas, the_button, the_icon; simpl.
  intros H.
  destruct c as [c|], b as [b|], l as [l|];
    try reflexivity.
  destruct H as [H | [H | H]]; discriminate.
Qed.

Lemma init_when_no2d (w : World) (c : Canvas) (b : Button) (l : Link) :
  the_canvas w = Some c -> the_button w = Some b -> the_icon w = Some l ->
  supports2d c = false ->
  init w = (Normal false, init_no2d c w).
Proof.
  destruct w as [[c0 b0 l0] ts n co v].
  unfold the_canvas, the_button, the_icon; simpl.
  intros -> -> -> H.
  destruct c as [wd ht sup cx bm]. simpl in H. subst sup.
  destruct cx; reflexivity.
Qed.

Lemma init_when_full (w : World) (c : Canvas) (b : Button) (l : Link) :
  the_canvas w = Some c -> the_button w = Some b -> the_icon w = Some l ->
  supports2d c = true ->
  init w = (Normal true, init_full b l w).
Proof.
  destruct w as [[c0 b0 l0] ts n co v].
  unfold the_canvas, the_button, the_icon; simpl.
  intros -> -> -> H.
  destruct c as [wd ht sup cx bm]. simpl in H. subst sup.
  destruct b as [dis ls].
  unfold init_full, with_listener; simpl.
  unfold init, setupCanvas, setupButton, resetButton.
  cbv [bind get assign ret querySelector_canvas querySelector_button
       querySelector_icon node_of is_null orb negb
       canvas_set_width canvas_set_height canvas_getContext on_canvas
       createLinearGradient set_strokeStyle set_lineWidth on_context
       addEventListener hasAttribute_disabled removeAttribute_disabled
       on_button console_log reset_context
       dom dom_canvas dom_button dom_icon vars context canvas favicon button
       set_dom set_dom_canvas set_dom_button set_vars set_canvas set_button
       set_favicon set_context set_console
       ctx2d width height supports2d bitmap strokeStyle lineWidth path
       timers next_timer console disabled listeners
       animationProgress animationInterval queried the_canvas the_button
       the_icon].
  destruct cx; destruct (existsb (same_listener ("mouseenter"%string, HandleButtonHover)) ls) eqn:E;
    unfold the_listener; rewrite ?E; destruct dis; reflexivity.
Qed.

(** ** The trigger handler and the browser's tasks *)

Lemma handleButtonHover_runs (w : World) (b : Button) :
  the_button w = Some b ->
  handleButtonHover bound w = (Normal tt, hovered w).
Proof.
  destruct w as [[c0 b0 l0] ts n co v].
  unfold the_button; simpl. intros ->. reflexivity.
Qed.

Lemma mouseenter_registered (w : World) :
  registered w = true -> react MouseEnter w = hovered w.
Proof.
  unfold registered, react, dispatch, the_button.
  destruct (dom_button (dom w)) as [b|] eqn:Eb; [|discriminate].
  destruct (listeners b) as [|[ty []] [|? ?]]; try discriminate.
  intros H. apply String.eqb_eq in H. subst ty. simpl.
  unfold after. now rewrite (handleButtonHover_runs w b).
Qed.

Lemma mouseenter_unregistered (w : World) :
  unregistered w = true -> react MouseEnter w = w.
Proof.
  unfold unregistered, react, dispatch, the_button.
  destruct (dom_button (dom w)) as [b|]; [|reflexivity].
  destruct (listeners b); [reflexivity | discriminate].
Qed.

Lemma tick_scheduled (h : Z) (w : World) :
  ready w = true -> scheduled h w = true -> react (Tick h) w = frame w.
Proof.
  unfold scheduled, react, fire. intros R.
  destruct (find_timer h (timers w)) as [[[] ms]|]; [|discriminate].
  intros _. simpl. unfold after. now rewrite animateFrame_ready.
Qed.

Lemma tick_unscheduled (h : Z) (w : World) :
  scheduled h w = false -> react (Tick h) w = w.
Proof.
  unfold scheduled, react, fire.
  destruct (find_timer h (timers w)); [discriminate | reflexivity].
Qed.

(** ** Runs of the sample page

    The decimal literals below stand for the nearest binary64 values, as
    they do in JavaScript. *)

#[local] Set Warnings "-inexact-float".

Example loaded_page_is_ready :
  ready (run [Load] (page_load full_page)) = true
  /\ registered (run [Load] (page_load full_page)) = true.
Proof. split; reflexivity. Qed.

Example frame_at_12 :
  current_path (after animateFrame (at_tick 12))
  = [MoveTo 0%float 0%float; LineTo 15.36%float 0%float].
Proof. vm_compute. reflexivity. Qed.

Example frame_at_37 :
  frame_segments (at_tick 37)
  = [top_edge; ((32%float, 0%float), (32%float, 15.36%float))].
Proof. vm_compute. reflexivity. Qed.

Example frame_at_51 :
  frame_segments (at_tick 51)
  = [top_edge; right_edge;
     ((32%float, 32%float), (30.72%float, 32%float))].
Proof. vm_compute. reflexivity. Qed.

Example run_to_the_end :
  let w := at_tick 101 in
  progress w = 100 /\ timers w = [] /\ handle w = None
  /\ is_disabled w = true.
Proof. vm_compute. repeat split. Qed.

Example second_hover_keeps_first_timer :
  let w := run [Load; MouseEnter; Tick 1; MouseEnter] (page_load full_page) in
  scheduled 1 w = true /\ scheduled 2 w = true /\ handle w = Some 2
  /\ progress w = 0.
Proof. vm_compute. repeat split. Qed.

(** ** Facts about the three tasks *)

Lemma init_cases (w : World) :
  (init w = (Normal false, init_absent w)
   /\ (the_canvas w = None \/ the_button w = None \/ the_icon w = None))
  \/ (exists c b l,
        the_canvas w = Some c /\ the_button w = Some b /\ the_icon w = Some l
        /\ supports2d c = false /\ init w = (Normal false, init_no2d c w))
  \/ (exists c b l,
        the_canvas w = Some c /\ the_button w = Some b /\ the_icon w = Some l
        /\ supports2d c = true /\ init w = (Normal true, init_full b l w)).
Proof.
  destruct (the_canvas w) as [c|] eqn:Ec;
    [| left; split; [apply init_when_absent|]; auto].
  destruct (the_button w) as [b|] eqn:Eb;
    [| left; split; [apply init_when_absent|]; auto].
  destruct (the_icon w) as [l|] eqn:El;
    [| left; split; [apply init_when_absent|]; auto].
  right. destruct (supports2d c) eqn:Es; [right | left];
    exists c, b, l; repeat split; auto.
  - now apply (init_when_full w c b l).
  - now apply (init_when_no2d w c b l).
Qed.

Lemma frame_facts (w : World) :
  ready w = true ->
  ready (frame w) = true
  /\ the_button (frame w) = the_button w
  /\ progress (frame w)
     = (if progress w =? ANIMATION_DURATION then progress w else progress w + 1)
  /\ handle (frame w)
     = (if progress w =? ANIMATION_DURATION then None else handle w)
  /\ timers (frame w)
     = (if progress w =? ANIMATION_DURATION
        then unschedule (handle w) (timers w) else timers w)
  /\ next_timer (frame w) = next_timer w.
Proof.
  intros H. destruct (ready_inv w H)
    as (cx & bm & b & l & ts & n & co & p & h & ->).
  unfold frame, progress, handle, the_canvas, the_button; simpl.
  destruct (p =? ANIMATION_DURATION); repeat split; reflexivity.
Qed.

Lemma hovered_facts (w : World) :
  ready (hovered w) = ready w
  /\ registered (hovered w) = registered w
  /\ unregistered (hovered w) = unregistered w
  /\ progress (hovered w) = 0
  /\ handle (hovered w) = Some (next_timer w)
  /\ timers (hovered w)
     = timers w ++ [(next_timer w, mkTimer AnimateFrame ANIMATION_SPEED)]
  /\ next_timer (hovered w) = next_timer w + 1
  /\ (forall b, the_button w = Some b ->
        the_button (hovered w)
        = Some {| disabled := true; listeners := listeners b |}).
Proof.
  destruct w as [[c b l] ts n co [vc vx vb vf p h]].
  unfold hovered, ready, registered, unregistered, progress, handle,
    the_canvas, the_button, the_icon; simpl.
  repeat split; try (destruct b; reflexivity).
  intros b' ->. reflexivity.
Qed.

Lemma init_full_facts (w : World) (c : Canvas) (b : Button) (l : Link) :
  the_canvas w = Some c -> the_button w = Some b -> the_icon w = Some l ->
  ready (init_full b l w) = true
  /\ progress (init_full b l w) = progress w
  /\ timers (init_full b l w) = timers w
  /\ handle (init_full b l w) = handle w
  /\ the_button (init_full b l w) = Some (with_listener b).
Proof.
  destruct w as [[c0 b0 l0] ts n co [vc vx vb vf p h]].
  unfold the_canvas, the_button, the_icon; simpl. intros -> -> ->.
  repeat split.
Qed.

Lemma registered_with_listener (w : World) (b : Button) (l : Link) :
  the_button w = Some b ->
  registered w = true \/ unregistered w = true ->
  registered (init_full b l w) = true.
Proof.
  unfold registered, unregistered, init_full, the_button; simpl.
  intros ->. unfold with_listener.
  destruct (listeners b) as [|[ty []] [|? ?]]; simpl.
  - reflexivity.
  - intros [H|H]; [|discriminate]. apply String.eqb_eq in H. subst ty.
    reflexivity.
  - intros [H|H]; discriminate.
Qed.

(** ** Every run keeps [Inv] *)

Lemma Inv_load (w : World) : Inv w -> Inv (react Load w).
Proof.
  intros [Hp Hs]. unfold react, after.
  destruct (init_cases w)
    as [[E A] | [(c & b & l & Ec & Eb & El & Es & E)
               | (c & b & l & Ec & Eb & El & Es & E)]];
    rewrite E; simpl.
  - split; [exact Hp|]. right. destruct Hs as [[R _] | [T U]].
    + exfalso. destruct (ready_inv w R)
        as (cx & bm & b & l & ts & n & co & p & h & ->).
      unfold the_canvas, the_button, the_icon in A; simpl in A.
      destruct A as [A | [A | A]]; discriminate.
    + split; [exact T | exact U].
  - split; [exact Hp|]. right. destruct Hs as [[R _] | [T U]].
    + exfalso. destruct (ready_inv w R)
        as (cx & bm & b' & l' & ts & n & co & p & h & ->).
      unfold the_canvas in Ec; simpl in Ec. inversion Ec; subst c.
      discriminate.
    + split; [exact T|].
      unfold unregistered, init_no2d, the_button in *; simpl. exact U.
  - destruct (init_full_facts w c b l Ec Eb El) as (R & P & T & _ & _).
    split; [unfold progress in *; rewrite P; exact Hp|].
    left. split; [exact R|].
    apply registered_with_listener; [exact Eb|].
    destruct Hs as [[_ G] | [_ U]]; auto.
Qed.

Lemma Inv_mouseenter (w : World) : Inv w -> Inv (react MouseEnter w).
Proof.
  intros [Hp Hs]. destruct Hs as [[R G] | [T U]].
  - rewrite (mouseenter_registered w G).
    destruct (hovered_facts w) as (R' & G' & _ & P & _).
    split; [rewrite P; unfold ANIMATION_DURATION; lia|].
    left. now rewrite R', G'.
  - rewrite (mouseenter_unregistered w U). split; auto.
Qed.

Lemma Inv_tick (h : Z) (w : World) : Inv w -> Inv (react (Tick h) w).
Proof.
  intros [Hp Hs]. destruct (scheduled h w) eqn:S.
  - destruct Hs as [[R G] | [T U]].
    + rewrite (tick_scheduled h w R S).
      destruct (frame_facts w R) as (R' & B & P & _).
      split.
      * rewrite P. destruct (Z.eqb_spec (progress w) ANIMATION_DURATION); lia.
      * left. split; [exact R'|].
        unfold registered in *. now rewrite B.
    + unfold scheduled in S. rewrite T in S. discriminate.
  - rewrite (tick_unscheduled h w S). split; auto.
Qed.

Lemma Inv_react (e : event) (w : World) : Inv w -> Inv (react e w).
Proof.
  destruct e; [apply Inv_load | apply Inv_mouseenter | apply Inv_tick].
Qed.

Lemma run_snoc (es : list event) (e : event) (w : World) :
  run (es ++ [e]) w = react e (run es w).
Proof. unfold run. now rewrite fold_left_app. Qed.

Lemma Inv_page_load (d : Document) : fresh d = true -> Inv (page_load d).
Proof.
  intros F. split; [unfold progress, ANIMATION_DURATION; simpl; lia|].
  right. split; [reflexivity | exact F].
Qed.

Lemma Inv_run (d : Document) (es : list event) :
  fresh d = true -> Inv (run es (page_load d)).
Proof.
  intros F. induction es as [|e es IH] using rev_ind.
  - now apply Inv_page_load.
  - rewrite run_snoc. now apply Inv_react.
Qed.

(** ** A session keeps at most one timer *)

Lemma init_keeps (w : World) :
  timers (after init w) = timers w
  /\ handle (after init w) = handle w
  /\ progress (after init w) = progress w
  /\ next_timer (after init w) = next_timer w.
Proof.
  unfold after.
  destruct (init_cases w)
    as [[E A] | [(c & b & l & Ec & Eb & El & Es & E)
               | (c & b & l & Ec & Eb & El & Es & E)]];
    rewrite E; destruct w as [[c0 b0 l0] ts n co [vc vx vb vf p h]];
    repeat split.
Qed.

Lemma SInv_load (d : Document) :
  fresh d = true -> SInv (react Load (page_load d)).
Proof.
  intros F. split.
  - apply Inv_load. now apply Inv_page_load.
  - left. destruct (init_keeps (page_load d)) as (T & H & _).
    unfold react. now rewrite T, H.
Qed.

Lemma scheduled_single (h h0 : Z) (t : Timer) (w : World) :
  timers w = [(h0, t)] -> scheduled h w = true -> h = h0.
Proof.
  unfold scheduled, find_timer. intros ->. simpl.
  destruct (Z.eqb_spec h0 h); [auto | discriminate].
Qed.

Lemma SInv_tick (h : Z) (w : World) : SInv w -> SInv (react (Tick h) w).
Proof.
  intros [I O]. split; [now apply Inv_tick|].
  destruct (scheduled h w) eqn:S;
    [| now rewrite (tick_unscheduled h w S)].
  destruct O as [[T _] | (h0 & T & H & D)].
  - unfold scheduled in S. rewrite T in S. discriminate.
  - destruct I as [_ [[R _] | [T' _]]]; [| rewrite T in T'; discriminate].
    rewrite (tick_scheduled h w R S).
    destruct (frame_facts w R) as (_ & B & _ & H' & T'' & _).
    destruct (progress w =? ANIMATION_DURATION).
    + left. rewrite T'', H', H, T. simpl. rewrite Z.eqb_refl. auto.
    + right. exists h0. rewrite T'', H'. repeat split; auto.
      unfold is_disabled in *. now rewrite B.
Qed.

Lemma SInv_hover (w : World) :
  SInv w -> is_disabled w = false -> SInv (react MouseEnter w).
Proof.
  intros [I O] D. split; [now apply Inv_mouseenter|].
  destruct O as [[T H] | (h0 & _ & _ & D')]; [| congruence].
  destruct I as [_ [[_ G] | [_ U]]].
  - rewrite (mouseenter_registered w G).
    destruct (hovered_facts w) as (_ & _ & _ & _ & H' & T' & _ & B).
    right. exists (next_timer w). rewrite T', T. repeat split; auto.
    unfold registered in G. unfold is_disabled.
    destruct (the_button w) as [b|] eqn:Eb; [|discriminate].
    now rewrite (B b eq_refl).
  - rewrite (mouseenter_unregistered w U). left. auto.
Qed.

Lemma SInv_session (d : Document) (w : World) :
  fresh d = true -> session d w -> SInv w.
Proof.
  intros F S. induction S.
  - now apply SInv_load.
  - now apply SInv_tick.
  - now apply SInv_hover.
Qed.

(** C8, as amended.  The trigger handler does not cancel a timer that is
    already scheduled.  In a session (one [init] at page load, then ticks and
    pointer entries that reach the button only while it is not disabled) at
    most one timer is scheduled at any time, and it is the one the module's
    handle names. *)
Theorem C8_one_timer_per_session (d : Document) (w : World) :
  fresh d = true -> session d w ->
  (List.length (timers w) <= 1)%nat
  /\ (forall h, scheduled h w = true -> handle w = Some h).
Proof.
  intros F S. destruct (SInv_session d w F S) as [_ O].
  destruct O as [[T H] | (h0 & T & H & _)].
  - rewrite T. split; [simpl; lia|].
    intros h Sh. unfold scheduled in Sh. rewrite T in Sh. discriminate.
  - split; [rewrite T; simpl; lia|].
    intros h Sh. now rewrite (scheduled_single h h0 _ w T Sh).
Qed.

Lemma C8_one_timer_per_session_witness :
  let w := react MouseEnter (react Load (page_load full_page)) in
  (List.length (timers w) <= 1)%nat
  /\ (forall h, scheduled h w = true -> handle w = Some h).
Proof.
  apply (C8_one_timer_per_session full_page).
  - reflexivity.
  - apply session_hover; [apply session_load | reflexivity].
Defined.

(** C8, as stated, fails: a second pointer entry while a run is in flight
    schedules a second timer and leaves the first one scheduled. *)
Lemma C8_two_timers :
  ~ (forall es : list event,
       (List.length (timers (run es (page_load full_page))) <= 1)%nat).
Proof.
  intros H. specialize (H [Load; MouseEnter; MouseEnter]).
  vm_compute in H. lia.
Qed.

(** ** The four quartiles *)

Lemma all_from_spec (f : Z -> bool) (n : nat) (lo : Z) :
  all_from lo n f = true ->
  forall p, lo <= p < lo + Z.of_nat n -> f p = true.
Proof.
  revert lo. induction n as [|k IH]; intros lo H p Hp.
  - simpl in Hp. lia.
  - simpl in H. apply andb_prop in H as [H0 H1].
    destruct (Z.eq_dec p lo) as [->|Hne]; [exact H0|].
    apply (IH (lo + 1) H1). lia.
Qed.

Lemma frame_draws (w : World) :
  ready w = true ->
  fst (animateFrame w) = Normal tt
  /\ after animateFrame w = frame w
  /\ current_path (frame w) = outline (progress w)
  /\ (exists s lw, drawn (frame w) = [Stroke (outline (progress w)) s lw])
  /\ the_icon (frame w)
     = Some (mkLink (DataURL "image/png" CANVAS_SIZE CANVAS_SIZE
                       (drawn (frame w)))).
Proof.
  intros R. unfold after. rewrite (animateFrame_ready w R).
  destruct (ready_inv w R)
    as (cx & bm & b & l & ts & n & co & p & h & ->).
  repeat split. now exists (strokeStyle cx), (lineWidth cx).
Qed.

Lemma outline_top (p : Z) :
  p <= 25 ->
  outline p
  = [MoveTo (num 0) (num 0); LineTo (PrimFloat.mul per_step (num p)) (num 0)].
Proof.
  intros H. unfold outline.
  destruct (Z.leb_spec p 25); [reflexivity | lia].
Qed.

Lemma outline_right (p : Z) :
  25 < p <= 50 ->
  outline p
  = [MoveTo (num 0) (num 0); LineTo side (num 0);
     MoveTo side (num 0);
     LineTo side (PrimFloat.mul per_step (PrimFloat.sub (num p) (num 25)))].
Proof.
  intros H. unfold outline.
  destruct (Z.leb_spec p 25); [lia|].
  destruct (Z.ltb_spec 25 p); [|lia].
  destruct (Z.leb_spec p 50); [reflexivity | lia].
Qed.

Lemma outline_bottom (p : Z) :
  50 < p <= 75 ->
  outline p
  = [MoveTo (num 0) (num 0); LineTo side (num 0);
     MoveTo side (num 0); LineTo side side;
     MoveTo side side; LineTo (back_from 75 p) side].
Proof.
  intros H. unfold outline.
  destruct (Z.leb_spec p 25); [lia|].
  destruct (Z.ltb_spec 25 p); [|lia].
  destruct (Z.leb_spec p 50); [lia|].
  destruct (Z.ltb_spec 50 p); [|lia].
  destruct (Z.leb_spec p 75); [reflexivity | lia].
Qed.

Lemma outline_left (p : Z) :
  75 < p <= 100 ->
  outline p
  = [MoveTo (num 0) (num 0); LineTo side (num 0);
     MoveTo side (num 0); LineTo side side;
     MoveTo side side; LineTo (num 0) side;
     MoveTo (num 0) side; LineTo (num 0) (back_from 100 p)].
Proof.
  intros H. unfold outline.
  destruct (Z.leb_spec p 25); [lia|].
  destruct (Z.ltb_spec 25 p); [|lia].
  destruct (Z.leb_spec p 50); [lia|].
  destruct (Z.ltb_spec 50 p); [|lia].
  destruct (Z.leb_spec p 75); [lia|].
  destruct (Z.ltb_spec 75 p); [|lia].
  unfold ANIMATION_DURATION.
  destruct (Z.leb_spec p 100); [reflexivity | lia].
Qed.

Lemma top_checked : all_from 0 26 top_check = true.
Proof. vm_compute. reflexivity. Qed.

(** C5.  For every progress in [0, 25] the frame draws one horizontal segment
    from the top-left corner, of length (size/25) x progress; the length lies
    in [0, size], so clamping it changes nothing, and it is size at 25. *)
Theorem C5_top_edge (w : World) :
  ready w = true -> 0 <= progress w <= 25 ->
  let len := PrimFloat.mul per_step (num (progress w)) in
  let w' := after animateFrame w in
  fst (animateFrame w) = Normal tt
  /\ current_path w' = [MoveTo (num 0) (num 0); LineTo len (num 0)]
  /\ segments (current_path w') = [((num 0, num 0), (len, num 0))]
  /\ (exists s lw, drawn w' = [Stroke (current_path w') s lw])
  /\ feq (seg_length ((num 0, num 0), (len, num 0))) len
  /\ clamp (num 0) side len = len
  /\ fle (num 0) len /\ fle len side
  /\ (progress w = 25 -> len = side).
Proof.
  intros R Hp len w'.
  destruct (frame_draws w R) as (N & A & P & D & _).
  subst w'. rewrite A, P, (outline_top (progress w)) by lia.
  fold len.
  pose proof (all_from_spec top_check 26 0 top_checked (progress w)) as C.
  assert (Hr : 0 <= progress w < 0 + Z.of_nat 26) by lia.
  specialize (C Hr). unfold top_check in C. fold len in C.
  repeat (apply andb_prop in C as [C ?]).
  repeat split; auto.
  - destruct D as (s & lw & D). exists s, lw.
    rewrite D, (outline_top (progress w)) by lia. reflexivity.
  - unfold clamp.
    destruct (PrimFloat.ltb len (num 0)); [discriminate|].
    destruct (PrimFloat.ltb side len); [discriminate | reflexivity].
  - intros E. subst len. rewrite E. reflexivity.
Qed.

Lemma C5_top_edge_witness :
  let w := at_tick 12 in
  let len := PrimFloat.mul per_step (num (progress w)) in
  let w' := after animateFrame w in
  fst (animateFrame w) = Normal tt
  /\ current_path w' = [MoveTo (num 0) (num 0); LineTo len (num 0)]
  /\ segments (current_path w') = [((num 0, num 0), (len, num 0))]
  /\ (exists s lw, drawn w' = [Stroke (current_path w') s lw])
  /\ feq (seg_length ((num 0, num 0), (len, num 0))) len
  /\ clamp (num 0) side len = len
  /\ fle (num 0) len /\ fle len side
  /\ (progress w = 25 -> len = side).
Proof.
  apply (C5_top_edge (at_tick 12)).
  - vm_compute. reflexivity.
  - vm_compute. split; discriminate.
Defined.

Lemma bottom_checked : all_from 51 25 (back_check 75) = true.
Proof. vm_compute. reflexivity. Qed.

Lemma left_checked : all_from 76 25 (back_check 100) = true.
Proof. vm_compute. reflexivity. Qed.

(** C3, as amended.  For 50 < progress <= 75 the frame draws the top and
    right edges in full and a bottom segment from the bottom-right corner
    leftward to x = -((size/25) x (progress - 75)).  The negated value is the
    end point's x coordinate, measured from the left edge: 0 <= x < size, and
    the segment is size - x long, the whole edge at 75. *)
Theorem C3_bottom_edge (w : World) :
  ready w = true -> 50 < progress w <= 75 ->
  let x := back_from 75 (progress w) in
  let w' := after animateFrame w in
  fst (animateFrame w) = Normal tt
  /\ segments (current_path w')
     = [top_edge; right_edge; ((side, side), (x, side))]
  /\ (exists s lw, drawn w' = [Stroke (current_path w') s lw])
  /\ fle (num 0) x /\ flt x side
  /\ feq (seg_length ((side, side), (x, side))) (PrimFloat.sub side x)
  /\ (progress w = 75 -> same_segment ((side, side), (x, side)) bottom_edge).
Proof.
  intros R Hp x w'.
  destruct (frame_draws w R) as (N & A & P & D & _).
  subst w'. rewrite A, P, (outline_bottom (progress w)) by lia.
  fold x.
  pose proof (all_from_spec (back_check 75) 25 51 bottom_checked (progress w))
    as C.
  assert (Hr : 51 <= progress w < 51 + Z.of_nat 25) by lia.
  specialize (C Hr). unfold back_check in C. fold x in C.
  repeat (apply andb_prop in C as [C ?]).
  split; [exact N|]. split; [reflexivity|].
  split.
  { destruct D as (s & lw & D). exists s, lw.
    rewrite D, (outline_bottom (progress w)) by lia. reflexivity. }
  split; [exact C|]. split; [assumption|]. split; [assumption|].
  intros E. subst x. rewrite E. vm_compute. repeat split.
Qed.

Lemma C3_bottom_edge_witness :
  let w := at_tick 51 in
  let x := back_from 75 (progress w) in
  let w' := after animateFrame w in
  fst (animateFrame w) = Normal tt
  /\ segments (current_path w')
     = [top_edge; right_edge; ((side, side), (x, side))]
  /\ (exists s lw, drawn w' = [Stroke (current_path w') s lw])
  /\ fle (num 0) x /\ flt x side
  /\ feq (seg_length ((side, side), (x, side))) (PrimFloat.sub side x)
  /\ (progress w = 75 -> same_segment ((side, side), (x, side)) bottom_edge).
Proof.
  apply (C3_bottom_edge (at_tick 51)).
  - vm_compute. reflexivity.
  - vm_compute. split; [reflexivity | discriminate].
Defined.

(** C3, as stated, fails at progress 51: the bottom segment drawn there runs
    from x = 32 to x = 30.72, so it is about 1.28 long, not 30.72. *)
Lemma C3_bottom_length_differs : ~ bottom_as_claimed (at_tick 51).
Proof.
  intros (s & Hs & _ & Hl).
  vm_compute in Hs. injection Hs as <-.
  vm_compute in Hl. destruct Hl; discriminate.
Qed.

(** C4, as amended.  For 75 < progress <= 100 the frame draws the top, right
    and bottom edges in full and a left segment from the bottom-left corner
    upward to y = -((size/25) x (progress - 100)).  The negated value is the
    end point's y coordinate, measured from the top edge: 0 <= y < size, and
    the segment is size - y long, the whole edge at 100. *)
Theorem C4_left_edge (w : World) :
  ready w = true -> 75 < progress w <= 100 ->
  let y := back_from 100 (progress w) in
  let w' := after animateFrame w in
  fst (animateFrame w) = Normal tt
  /\ segments (current_path w')
     = [top_edge; right_edge; bottom_edge; ((num 0, side), (num 0, y))]
  /\ (exists s lw, drawn w' = [Stroke (current_path w') s lw])
  /\ fle (num 0) y /\ flt y side
  /\ feq (seg_length ((num 0, side), (num 0, y))) (PrimFloat.sub side y)
  /\ (progress w = 100 -> same_segment ((num 0, side), (num 0, y)) left_edge).
Proof.
  intros R Hp y w'.
  destruct (frame_draws w R) as (N & A & P & D & _).
  subst w'. rewrite A, P, (outline_left (progress w)) by lia.
  fold y.
  pose proof (all_from_spec (back_check 100) 25 76 left_checked (progress w))
    as C.
  assert (Hr : 76 <= progress w < 76 + Z.of_nat 25) by lia.
  specialize (C Hr). unfold back_check in C. fold y in C.
  repeat (apply andb_prop in C as [C ?]).
  split; [exact N|]. split; [reflexivity|].
  split.
  { destruct D as (s & lw & D). exists s, lw.
    rewrite D, (outline_left (progress w)) by lia. reflexivity. }
  split; [exact C|]. split; [assumption|]. split; [assumption|].
  intros E. subst y. rewrite E. vm_compute. repeat split.
Qed.

Lemma C4_left_edge_witness :
  let w := at_tick 76 in
  let y := back_from 100 (progress w) in
  let w' := after animateFrame w in
  fst (animateFrame w) = Normal tt
  /\ segments (current_path w')
     = [top_edge; right_edge; bottom_edge; ((num 0, side), (num 0, y))]
  /\ (exists s lw, drawn w' = [Stroke (current_path w') s lw])
  /\ fle (num 0) y /\ flt y side
  /\ feq (seg_length ((num 0, side), (num 0, y))) (PrimFloat.sub side y)
  /\ (progress w = 100 -> same_segment ((num 0, side), (num 0, y)) left_edge).
Proof.
  apply (C4_left_edge (at_tick 76)).
  - vm_compute. reflexivity.
  - vm_compute. split; [reflexivity | discriminate].
Defined.

(** C4, as stated, fails at progress 76: the left segment drawn there runs
    from y = 32 to y = 30.72, so it is about 1.28 long, not 30.72. *)
Lemma C4_left_length_differs : ~ left_as_claimed (at_tick 76).
Proof.
  intros (s & Hs & _ & Hl).
  vm_compute in Hs. injection Hs as <-.
  vm_compute in Hl. destruct Hl; discriminate.
Qed.

(** C6, as amended.  At progress 25, 50 and 75 the quartile's own segment is
    drawn at full edge length and no segment of the next quartile is drawn.
    On the following tick (26, 51, 76) the next quartile's partial segment is
    already one step long: (size/25) x 1 at 26, and size - (size/25) x 24 at
    51 and 76, which is not less than size/25. *)
Theorem C6_quartile_boundaries (w : World) :
  ready w = true ->
  let step := PrimFloat.sub side (PrimFloat.mul per_step (num 24)) in
  (progress w = 25 ->
     frame_segments w = [top_edge] /\ Forall full_length (frame_segments w))
  /\ (progress w = 50 ->
        frame_segments w = [top_edge; right_edge]
        /\ Forall full_length (frame_segments w))
  /\ (progress w = 75 ->
        Forall2 same_segment (frame_segments w)
          [top_edge; right_edge; bottom_edge]
        /\ Forall full_length (frame_segments w))
  /\ (progress w = 26 ->
        exists s, frame_segments w = [top_edge; s]
                  /\ fst s = (side, num 0) /\ seg_length s = per_step)
  /\ (progress w = 51 ->
        exists s, frame_segments w = [top_edge; right_edge; s]
                  /\ fst s = (side, side) /\ seg_length s = step)
  /\ (progress w = 76 ->
        exists s, frame_segments w = [top_edge; right_edge; bottom_edge; s]
                  /\ fst s = (num 0, side) /\ seg_length s = step)
  /\ fle per_step step /\ flt (num 0) per_step.
Proof.
  intros R step.
  destruct (frame_draws w R) as (_ & A & P & _).
  unfold frame_segments. rewrite A, P.
  split; [intros E; rewrite E; split;
          [reflexivity | vm_compute; repeat constructor]|].
  split; [intros E; rewrite E; split;
          [reflexivity | vm_compute; repeat constructor]|].
  split; [intros E; rewrite E; split; vm_compute; repeat constructor|].
  split; [intros E; rewrite E; vm_compute; eexists;
          split; [reflexivity | split; reflexivity]|].
  split; [intros E; rewrite E; vm_compute; eexists;
          split; [reflexivity | split; reflexivity]|].
  split; [intros E; rewrite E; vm_compute; eexists;
          split; [reflexivity | split; reflexivity]|].
  split; vm_compute; reflexivity.
Qed.

Lemma C6_quartile_boundaries_witness :
  (frame_segments (at_tick 25) = [top_edge]
   /\ Forall full_length (frame_segments (at_tick 25)))
  /\ (frame_segments (at_tick 50) = [top_edge; right_edge]
      /\ Forall full_length (frame_segments (at_tick 50)))
  /\ (Forall2 same_segment (frame_segments (at_tick 75))
        [top_edge; right_edge; bottom_edge]
      /\ Forall full_length (frame_segments (at_tick 75)))
  /\ (exists s, frame_segments (at_tick 26) = [top_edge; s]
                /\ fst s = (side, num 0) /\ seg_length s = per_step)
  /\ (exists s, frame_segments (at_tick 51) = [top_edge; right_edge; s]
                /\ fst s = (side, side)
                /\ seg_length s
                   = PrimFloat.sub side (PrimFloat.mul per_step (num 24)))
  /\ (exists s, frame_segments (at_tick 76)
                = [top_edge; right_edge; bottom_edge; s]
                /\ fst s = (num 0, side)
                /\ seg_length s
                   = PrimFloat.sub side (PrimFloat.mul per_step (num 24))).
Proof.
  split; [apply (C6_quartile_boundaries (at_tick 25)); vm_compute; reflexivity|].
  split; [apply (C6_quartile_boundaries (at_tick 50)); vm_compute; reflexivity|].
  split; [apply (C6_quartile_boundaries (at_tick 75)); vm_compute; reflexivity|].
  split; [apply (C6_quartile_boundaries (at_tick 26)); vm_compute; reflexivity|].
  split; [apply (C6_quartile_boundaries (at_tick 51)); vm_compute; reflexivity|].
  apply (C6_quartile_boundaries (at_tick 76)); vm_compute; reflexivity.
Defined.

(** C6, as stated, fails at progress 26: the right edge's partial segment
    drawn there is 1.28 long, not 0. *)
Lemma C6_next_segment_not_zero : ~ starts_at_zero (at_tick 26).
Proof.
  intros (s & Hs & Hl).
  vm_compute in Hs. injection Hs as <-.
  vm_compute in Hl. discriminate.
Qed.

(** ** The last frame *)

Lemma find_timer_unschedule (k : Z) (h : option Z) (ts : list (Z * Timer))
    (t : Timer) :
  find_timer k (unschedule h ts) = Some t ->
  find_timer k ts = Some t /\ h <> Some k.
Proof.
  destruct h as [i|]; simpl; [| intros H; split; [exact H | discriminate]].
  unfold find_timer. induction ts as [|[j u] ts IH]; simpl; [discriminate|].
  destruct (Z.eqb_spec j i) as [->|Hji]; simpl.
  - intros H. destruct (IH H) as [F N]. split; [|exact N].
    destruct (Z.eqb_spec i k) as [->|]; [congruence | exact F].
  - destruct (Z.eqb_spec j k) as [->|Hjk].
    + intros H. split; [exact H | congruence].
    + exact IH.
Qed.

Lemma unscheduled_handle (h : Z) (ts : list (Z * Timer)) :
  find_timer h (unschedule (Some h) ts) = None.
Proof.
  destruct (find_timer h (unschedule (Some h) ts)) as [t|] eqn:E; [|reflexivity].
  apply find_timer_unschedule in E as [_ N]. congruence.
Qed.

Lemma find_timer_app (k n : Z) (t : Timer) (ts : list (Z * Timer)) :
  find_timer k (ts ++ [(n, t)])
  = match find_timer k ts with
    | Some u => Some u
    | None => if n =? k then Some t else None
    end.
Proof.
  unfold find_timer. induction ts as [|[j u] ts IH]; simpl.
  - now destruct (n =? k).
  - destruct (j =? k); [reflexivity | exact IH].
Qed.

Lemma find_timer_kept (k : Z) (h : option Z) (ts : list (Z * Timer)) :
  h <> Some k -> find_timer k (unschedule h ts) = find_timer k ts.
Proof.
  destruct h as [i|]; [|reflexivity]. intros N.
  assert (Nik : i <> k) by congruence.
  unfold find_timer, unschedule.
  induction ts as [|[j u] ts IH]; simpl; [reflexivity|].
  destruct (Z.eqb_spec j i) as [->|Hji]; simpl.
  - destruct (Z.eqb_spec i k); [contradiction | exact IH].
  - destruct (j =? k); [reflexivity | exact IH].
Qed.

Lemma at_tick_eq (n : nat) :
  at_tick n
  = run ([Load; MouseEnter] ++ repeat (Tick 1) n) (page_load full_page).
Proof. reflexivity. Qed.

Lemma session_at_tick (n : nat) : session full_page (at_tick n).
Proof.
  induction n as [|n IH].
  - apply (session_hover full_page (react Load (page_load full_page)));
      [apply session_load | reflexivity].
  - unfold at_tick in *. simpl repeat.
    rewrite repeat_cons, app_assoc, run_snoc. now apply session_tick.
Qed.

(** C1, as amended.  On the tick at progress 100 the frame draws the four
    edges at full length, publishes that bitmap as the favicon, clears the
    interval the handle names and nulls the handle, and leaves the button and
    its disabled attribute as they were.  The cleared interval does not tick
    again, and no interval does when it was the only one scheduled, as it is
    in every state of a session; an interval the handle does not name stays
    scheduled. *)
Theorem C1_final_frame (w : World) :
  ready w = true -> progress w = 100 ->
  let w' := after animateFrame w in
  fst (animateFrame w) = Normal tt
  /\ Forall2 same_segment (frame_segments w)
       [top_edge; right_edge; bottom_edge; left_edge]
  /\ Forall full_length (frame_segments w)
  /\ (exists s lw, drawn w' = [Stroke (current_path w') s lw])
  /\ the_icon w'
     = Some (mkLink (DataURL "image/png" CANVAS_SIZE CANVAS_SIZE (drawn w')))
  /\ handle w' = None
  /\ timers w' = unschedule (handle w) (timers w)
  /\ (forall h, handle w = Some h ->
        scheduled h w' = false /\ react (Tick h) w' = w')
  /\ (forall h, scheduled h w = true -> handle w <> Some h ->
        scheduled h w' = true)
  /\ ((forall h, scheduled h w = true -> handle w = Some h) ->
      forall h, scheduled h w' = false /\ react (Tick h) w' = w')
  /\ (forall d, fresh d = true -> session d w ->
      timers w' = [] /\ forall h, react (Tick h) w' = w')
  /\ the_button w' = the_button w
  /\ progress w' = 100.
Proof.
  intros R E w'.
  destruct (frame_draws w R) as (N & A & P & D & I).
  destruct (frame_facts w R) as (_ & B & Pr & H & T & _).
  rewrite E in Pr, H, T. simpl in Pr, H, T.
  unfold frame_segments. subst w'. rewrite A.
  split; [exact N|].
  split; [rewrite P, E; vm_compute; repeat constructor|].
  split; [rewrite P, E; vm_compute; repeat constructor|].
  split; [destruct D as (s & lw & D); exists s, lw; now rewrite D, P|].
  split; [exact I|].
  split; [exact H|].
  split; [exact T|].
  assert (U : forall h, scheduled h (frame w) = false ->
                        scheduled h (frame w) = false
                        /\ react (Tick h) (frame w) = frame w).
  { intros h S. split; [exact S | now apply tick_unscheduled]. }
  split.
  { intros h Hh. apply U. unfold scheduled.
    now rewrite T, Hh, unscheduled_handle. }
  split.
  { intros h S Ne. unfold scheduled in *.
    now rewrite T, (find_timer_kept h (handle w) (timers w) Ne). }
  split.
  { intros Only h. apply U. unfold scheduled. rewrite T.
    destruct (find_timer h (unschedule (handle w) (timers w))) as [t|] eqn:F;
      [|reflexivity].
    apply find_timer_unschedule in F as [F Ne].
    exfalso. apply Ne. apply Only. unfold scheduled. now rewrite F. }
  split; [| split; [exact B | exact Pr]].
  intros d Fd S.
  assert (T0 : timers (frame w) = []).
  { destruct (SInv_session d w Fd S) as [_ [[Tw Hw] | (h0 & Tw & Hw & _)]];
      rewrite T, Tw, Hw; simpl; [reflexivity|].
    now rewrite Z.eqb_refl. }
  split; [exact T0|].
  intros h. apply tick_unscheduled. unfold scheduled. now rewrite T0.
Qed.

Lemma C1_final_frame_witness :
  let w := at_tick 100 in
  let w' := after animateFrame w in
  (scheduled 1 w = true /\ handle w = Some 1 /\ is_disabled w = true)
  /\ fst (animateFrame w) = Normal tt
  /\ Forall2 same_segment (frame_segments w)
       [top_edge; right_edge; bottom_edge; left_edge]
  /\ the_icon w'
     = Some (mkLink (DataURL "image/png" CANVAS_SIZE CANVAS_SIZE (drawn w')))
  /\ handle w' = None
  /\ scheduled 1 w' = false
  /\ timers w' = []
  /\ the_button w' = the_button w.
Proof.
  intros w w'. subst w w'.
  split; [repeat split|].
  pose proof (C1_final_frame (at_tick 100)) as C. cbv zeta in C.
  destruct C as (N & Sq & _ & _ & I & H & _ & St & _ & _ & Se & B & _);
    [vm_compute; reflexivity | vm_compute; reflexivity |].
  split; [exact N|]. split; [exact Sq|]. split; [exact I|].
  split; [exact H|].
  split; [apply (St 1); reflexivity|].
  split; [| exact B].
  apply (Se full_page); [reflexivity | apply session_at_tick].
Defined.

(** C1, as stated, fails after a second pointer entry: at progress 100 the
    frame clears the interval the handle names (the second) and the first one
    stays scheduled, so ticks go on. *)
Lemma C1_orphan_keeps_ticking :
  ready two_runs_at_100 = true /\ progress two_runs_at_100 = 100
  /\ ~ no_further_ticks two_runs_at_100.
Proof.
  split; [vm_compute; reflexivity|]. split; [vm_compute; reflexivity|].
  intros H. specialize (H 1). vm_compute in H. discriminate.
Qed.

(** ** The counter *)

(** C2, as amended.  In every world a page reaches, by any sequence of page
    loads, pointer entries and ticks, the counter lies in [0, 100].  It is 0
    when the module is evaluated; [init] leaves it alone; a pointer entry that
    finds the listener sets it to 0 and starts a run on a new interval, and
    nothing else brings it back to 0; a tick below 100 adds exactly 1 and
    leaves the interval scheduled; the tick at 100 leaves the counter at 100,
    clears the interval the handle names and nulls the handle.  The interval
    that ticked stops when the handle names it, as it does in every state of
    a session; otherwise it stays scheduled.  A timer that is not scheduled
    does not tick. *)
Theorem C2_progress_range (d : Document) (es : list event) :
  fresh d = true ->
  let w := run es (page_load d) in
  0 <= progress w <= 100
  /\ progress (page_load d) = 0
  /\ progress (react Load w) = progress w
  /\ (registered w = true ->
      progress (react MouseEnter w) = 0
      /\ handle (react MouseEnter w) = Some (next_timer w)
      /\ scheduled (next_timer w) (react MouseEnter w) = true)
  /\ (registered w = false -> react MouseEnter w = w)
  /\ (forall h, scheduled h w = true -> progress w < 100 ->
        progress (react (Tick h) w) = progress w + 1
        /\ timers (react (Tick h) w) = timers w
        /\ handle (react (Tick h) w) = handle w
        /\ scheduled h (react (Tick h) w) = true)
  /\ (forall h, scheduled h w = true -> progress w = 100 ->
        progress (react (Tick h) w) = 100
        /\ timers (react (Tick h) w) = unschedule (handle w) (timers w)
        /\ handle (react (Tick h) w) = None
        /\ (handle w = Some h -> loop_stops h w)
        /\ (handle w <> Some h -> scheduled h (react (Tick h) w) = true)
        /\ (session d w -> loop_stops h w /\ timers (react (Tick h) w) = []))
  /\ (forall h, scheduled h w = false -> react (Tick h) w = w)
  /\ (forall e, progress (react e w) = 0 ->
        progress w = 0 \/ (e = MouseEnter /\ registered w = true)).
Proof.
  intros F w. destruct (Inv_run d es F) as [Hp Hs]. fold w in Hp, Hs.
  assert (L : progress (react Load w) = progress w)
    by (destruct (init_keeps w) as (_ & _ & P & _); exact P).
  assert (M0 : registered w = true ->
               progress (react MouseEnter w) = 0
               /\ handle (react MouseEnter w) = Some (next_timer w)
               /\ scheduled (next_timer w) (react MouseEnter w) = true).
  { intros G. rewrite (mouseenter_registered w G).
    destruct (hovered_facts w) as (_ & _ & _ & P & H & T & _).
    split; [exact P|]. split; [exact H|].
    unfold scheduled. rewrite T, find_timer_app.
    destruct (find_timer (next_timer w) (timers w)); [reflexivity|].
    now rewrite Z.eqb_refl. }
  assert (M1 : registered w = false -> react MouseEnter w = w).
  { intros G. apply mouseenter_unregistered.
    destruct Hs as [[_ G'] | [_ U]]; [congruence | exact U]. }
  assert (Rd : forall h, scheduled h w = true -> ready w = true).
  { intros h S. destruct Hs as [[R _] | [T _]]; [exact R|].
    unfold scheduled in S. rewrite T in S. discriminate. }
  assert (T0 : forall h, scheduled h w = true -> progress w < 100 ->
             progress (react (Tick h) w) = progress w + 1
             /\ timers (react (Tick h) w) = timers w
             /\ handle (react (Tick h) w) = handle w
             /\ scheduled h (react (Tick h) w) = true).
  { intros h S Lt. rewrite (tick_scheduled h w (Rd h S) S).
    destruct (frame_facts w (Rd h S)) as (_ & _ & P & H & T & _).
    unfold ANIMATION_DURATION in *.
    destruct (Z.eqb_spec (progress w) 100); [lia|].
    split; [exact P|]. split; [exact T|]. split; [exact H|].
    unfold scheduled in *. now rewrite T. }
  assert (T1 : forall h, scheduled h w = true -> progress w = 100 ->
             progress (react (Tick h) w) = 100
             /\ timers (react (Tick h) w) = unschedule (handle w) (timers w)
             /\ handle (react (Tick h) w) = None
             /\ (handle w = Some h -> loop_stops h w)
             /\ (handle w <> Some h ->
                 scheduled h (react (Tick h) w) = true)
             /\ (session d w ->
                 loop_stops h w /\ timers (react (Tick h) w) = [])).
  { intros h S E. unfold loop_stops.
    rewrite (tick_scheduled h w (Rd h S) S).
    destruct (frame_facts w (Rd h S)) as (_ & _ & P & H & T & _).
    rewrite E in P, H, T. simpl in P, H, T.
    split; [exact P|]. split; [exact T|]. split; [exact H|].
    split.
    { intros Hh. unfold scheduled. now rewrite T, Hh, unscheduled_handle. }
    split.
    { intros Ne. unfold scheduled in *.
      now rewrite T, (find_timer_kept h (handle w) (timers w) Ne). }
    intros Ss.
    destruct (SInv_session d w F Ss) as [_ [[Tw _] | (h0 & Tw & Hw & _)]].
    - unfold scheduled in S. rewrite Tw in S. discriminate.
    - assert (T' : timers (frame w) = []).
      { rewrite T, Tw, Hw. simpl. now rewrite Z.eqb_refl. }
      split; [|exact T']. unfold scheduled. now rewrite T'. }
  unfold ANIMATION_DURATION in Hp.
  split; [exact Hp|]. split; [reflexivity|]. split; [exact L|].
  split; [exact M0|]. split; [exact M1|]. split; [exact T0|].
  split; [exact T1|].
  split; [intros h S; now apply tick_unscheduled|].
  intros e Z0. destruct e as [| | h].
  - left. now rewrite <- L.
  - destruct (registered w) eqn:G; [right; auto | left].
    now rewrite (M1 eq_refl) in Z0.
  - left. destruct (scheduled h w) eqn:S.
    + destruct (Z.eq_dec (progress w) 100) as [E|Ne].
      * destruct (T1 h S E) as (P & _). lia.
      * destruct (T0 h S) as (P & _); lia.
    + now rewrite (tick_unscheduled h w S) in Z0.
Qed.

Lemma C2_progress_range_witness :
  let w := run [Load; MouseEnter; Tick 1; Tick 1] (page_load full_page) in
  let v := at_tick 100 in
  (progress w = 2 /\ scheduled 1 w = true /\ registered w = true
   /\ progress (react (Tick 1) w) = 3
   /\ scheduled 1 (react (Tick 1) w) = true
   /\ progress (react MouseEnter w) = 0
   /\ scheduled 2 (react MouseEnter w) = true)
  /\ (progress v = 100 /\ scheduled 1 v = true
      /\ progress (react (Tick 1) v) = 100
      /\ handle (react (Tick 1) v) = None
      /\ timers (react (Tick 1) v) = []).
Proof.
  intros w v. subst w v. split.
  - pose proof (C2_progress_range full_page
                  [Load; MouseEnter; Tick 1; Tick 1] eq_refl) as C.
    cbv zeta in C. destruct C as (_ & _ & _ & M & _ & T0 & _).
    destruct (M eq_refl) as (P0 & _ & S2).
    destruct (T0 1 eq_refl eq_refl) as (P1 & _ & _ & S1).
    split; [reflexivity|]. split; [reflexivity|]. split; [reflexivity|].
    split; [exact P1|]. split; [exact S1|]. split; [exact P0 | exact S2].
  - pose proof (C2_progress_range full_page
                  ([Load; MouseEnter] ++ repeat (Tick 1) 100) eq_refl) as C.
    cbv zeta in C. destruct C as (_ & _ & _ & _ & _ & _ & T1 & _).
    pose proof (session_at_tick 100) as Ss.
    rewrite (at_tick_eq 100) in Ss |- *.
    assert (S : scheduled 1
                  (run ([Load; MouseEnter] ++ repeat (Tick 1) 100)
                     (page_load full_page)) = true)
      by (vm_compute; reflexivity).
    assert (P : progress
                  (run ([Load; MouseEnter] ++ repeat (Tick 1) 100)
                     (page_load full_page)) = 100)
      by (vm_compute; reflexivity).
    destruct (T1 1 S P) as (P' & _ & H' & _ & _ & Se).
    destruct (Se Ss) as (_ & T').
    split; [exact P|]. split; [exact S|]. split; [exact P'|].
    split; [exact H' | exact T'].
Defined.

(** C2, as stated, fails after a second pointer entry: at progress 100 the
    tick of the first interval clears the second (the one the handle names),
    and the first, which ticked, is still scheduled. *)
Lemma C2_loop_goes_on :
  progress two_runs_at_100 = 100 /\ scheduled 1 two_runs_at_100 = true
  /\ ~ loop_stops 1 two_runs_at_100.
Proof.
  split; [vm_compute; reflexivity|]. split; [vm_compute; reflexivity|].
  unfold loop_stops. intros H. vm_compute in H. discriminate.
Qed.

(** ** The trigger *)

Lemma find_timer_new (h : Z) (t : Timer) (ts : list (Z * Timer)) :
  find_timer h ts = None -> find_timer h (ts ++ [(h, t)]) = Some t.
Proof.
  unfold find_timer. induction ts as [|[j u] ts IH]; simpl.
  - now rewrite Z.eqb_refl.
  - destruct (j =? h); [discriminate | exact IH].
Qed.

(** C7.  Whatever the counter holds, the trigger handler sets it to 0,
    schedules a new interval of 60 ms whose callback is [animateFrame], keeps
    its id in the handle and sets the button's disabled attribute; a pointer
    entry on the button that carries the listener does exactly this.  The
    interval repeats: its tick runs [animateFrame] and leaves it scheduled. *)
Theorem C7_trigger (w : World) (b : Button) :
  the_button w = Some b ->
  let w' := after (handleButtonHover bound) w in
  let h := next_timer w in
  fst (handleButtonHover bound w) = Normal tt
  /\ progress w' = 0
  /\ timers w'
     = timers w ++ [(h, {| t_callback := AnimateFrame; t_delay := 60 |})]
  /\ handle w' = Some h
  /\ the_button w' = Some {| disabled := true; listeners := listeners b |}
  /\ (registered w = true -> react MouseEnter w = w')
  /\ (ready w = true -> scheduled h w = false ->
      react (Tick h) w' = after animateFrame w'
      /\ progress (react (Tick h) w') = 1
      /\ scheduled h (react (Tick h) w') = true).
Proof.
  intros B w' h.
  assert (E : w' = hovered w)
    by (subst w'; unfold after; now rewrite (handleButtonHover_runs w b B)).
  rewrite E. clear E w'.
  destruct (hovered_facts w) as (R & _ & _ & P & H & T & _ & Bt).
  split; [now rewrite (handleButtonHover_runs w b B)|]. split; [exact P|]. split; [exact T|].
  split; [exact H|]. split; [now apply Bt|].
  split; [intros G; now apply mouseenter_registered|].
  intros Rw S.
  assert (Rh : ready (hovered w) = true) by (now rewrite R).
  assert (Sh : scheduled h (hovered w) = true).
  { unfold scheduled in *. rewrite T. subst h.
    destruct (find_timer (next_timer w) (timers w)) eqn:F; [discriminate|].
    now rewrite (find_timer_new _ _ _ F). }
  rewrite (tick_scheduled h (hovered w) Rh Sh).
  unfold after. rewrite (animateFrame_ready (hovered w) Rh).
  destruct (frame_facts (hovered w) Rh) as (_ & _ & P' & _ & T' & _).
  rewrite P in P', T'. simpl in P', T'.
  split; [reflexivity|]. split; [exact P'|].
  unfold scheduled. rewrite T'. exact Sh.
Qed.

Lemma C7_trigger_witness :
  let w := at_tick 40 in
  let w' := after (handleButtonHover bound) w in
  let h := next_timer w in
  progress w = 40
  /\ fst (handleButtonHover bound w) = Normal tt
  /\ progress w' = 0
  /\ timers w'
     = timers w ++ [(h, {| t_callback := AnimateFrame; t_delay := 60 |})]
  /\ handle w' = Some h
  /\ the_button w'
     = Some {| disabled := true; listeners := [the_listener] |}
  /\ (registered w = true -> react MouseEnter w = w')
  /\ (ready w = true -> scheduled h w = false ->
      react (Tick h) w' = after animateFrame w'
      /\ progress (react (Tick h) w') = 1
      /\ scheduled h (react (Tick h) w') = true).
Proof.
  split; [reflexivity|].
  apply (C7_trigger (at_tick 40)
           {| disabled := true; listeners := [the_listener] |}).
  vm_compute. reflexivity.
Defined.

(** ** [init] on a page that lacks a node or 2D drawing *)

Lemma init_absent_keeps (w : World) :
  absent w ->
  fst (init w) = Normal false
  /\ dom (after init w) = dom w
  /\ timers (after init w) = timers w
  /\ next_timer (after init w) = next_timer w
  /\ context (vars (after init w)) = context (vars w)
  /\ progress (after init w) = progress w
  /\ handle (after init w) = handle w.
Proof.
  intros A. unfold after. rewrite (init_when_absent w A).
  repeat split.
Qed.

Lemma absent_iter (n : nat) (w : World) :
  absent w ->
  let wn := Nat.iter n (after init) w in
  dom wn = dom w /\ timers wn = timers w /\ next_timer wn = next_timer w
  /\ context (vars wn) = context (vars w)
  /\ progress wn = progress w /\ handle wn = handle w.
Proof.
  intros A. induction n as [|n IH]; simpl; [repeat split|].
  destruct IH as (D & T & N & C & P & H).
  assert (A' : absent (Nat.iter n (after init) w))
    by (unfold absent, the_canvas, the_button, the_icon in *; now rewrite D).
  destruct (init_absent_keeps _ A') as (_ & D' & T' & N' & C' & P' & H').
  repeat split; congruence.
Qed.

(** C9.  While a canvas, a button or an icon link is missing, every call of
    [init], however many came before, returns false and leaves the page as
    it was: the document (so the button's listeners and attributes) and the
    timers are unchanged, and of the module's variables only the three node
    references are rewritten. *)
Theorem C9_init_absent (w : World) (n : nat) :
  the_canvas w = None \/ the_button w = None \/ the_icon w = None ->
  let wn := Nat.iter n (after init) w in
  fst (init wn) = Normal false
  /\ dom (after init wn) = dom w
  /\ the_button (after init wn) = the_button w
  /\ timers (after init wn) = timers w
  /\ context (vars (after init wn)) = context (vars w)
  /\ progress (after init wn) = progress w
  /\ handle (after init wn) = handle w
  /\ (unregistered w = true -> unregistered (after init wn) = true).
Proof.
  intros A wn.
  destruct (absent_iter n w A) as (D & T & N & C & P & H).
  fold wn in D, T, N, C, P, H.
  assert (A' : absent wn)
    by (unfold absent, the_canvas, the_button, the_icon in *; now rewrite D).
  destruct (init_absent_keeps wn A') as (F & D' & T' & N' & C' & P' & H').
  assert (B : the_button (after init wn) = the_button w)
    by (unfold the_button; congruence).
  split; [exact F|]. split; [congruence|]. split; [exact B|].
  split; [congruence|]. split; [congruence|]. split; [congruence|].
  split; [congruence|].
  unfold unregistered; now rewrite B.
Qed.

Lemma C9_init_absent_witness :
  let w := page_load page_without_canvas in
  let wn := Nat.iter 2 (after init) w in
  fst (init wn) = Normal false
  /\ dom (after init wn) = dom w
  /\ the_button (after init wn) = the_button w
  /\ timers (after init wn) = timers w
  /\ context (vars (after init wn)) = context (vars w)
  /\ progress (after init wn) = progress w
  /\ handle (after init wn) = handle w
  /\ (unregistered w = true -> unregistered (after init wn) = true).
Proof.
  apply (C9_init_absent (page_load page_without_canvas) 2).
  left. reflexivity.
Defined.

(** C10.  With the three nodes present and no 2D context to be had, [init]
    returns false and attaches no listener (the button, the icon link and the
    timers are as they were, and [context] is null), but the canvas has been
    resized to 32 x 32 by then: the document differs from the one before
    whenever the canvas had another size. *)
Theorem C10_init_without_context (w : World) (c : Canvas) (b : Button)
    (l : Link) :
  the_canvas w = Some c -> the_button w = Some b -> the_icon w = Some l ->
  supports2d c = false ->
  let w' := after init w in
  fst (init w) = Normal false
  /\ the_button w' = Some b
  /\ the_icon w' = Some l
  /\ timers w' = timers w
  /\ context (vars w') = null
  /\ (exists c', the_canvas w' = Some c'
                 /\ width c' = 32 /\ height c' = 32 /\ bitmap c' = [])
  /\ (width c <> 32 \/ height c <> 32 -> dom w' <> dom w).
Proof.
  intros Ec Eb El Es w'. subst w'. unfold after.
  rewrite (init_when_no2d w c b l Ec Eb El Es).
  destruct w as [[c0 b0 l0] ts n co v].
  unfold the_canvas, the_button, the_icon in *; simpl in *. subst c0 b0 l0.
  split; [reflexivity|]. split; [reflexivity|]. split; [reflexivity|].
  split; [reflexivity|]. split; [reflexivity|].
  split; [eexists; repeat split|].
  intros Hs Hd. injection Hd as Hc.
  assert (W : width c = 32 /\ height c = 32)
    by (rewrite <- Hc; split; reflexivity).
  destruct W as [W1 W2]. destruct Hs as [Hs | Hs]; now apply Hs.
Qed.

Lemma C10_init_without_context_witness :
  let w := page_load page_without_2d in
  let w' := after init w in
  fst (init w) = Normal false
  /\ the_button w' = Some plain_button
  /\ the_icon w' = Some plain_icon
  /\ timers w' = timers w
  /\ context (vars w') = null
  /\ (exists c', the_canvas w' = Some c'
                 /\ width c' = 32 /\ height c' = 32 /\ bitmap c' = [])
  /\ (width (plain_canvas false) <> 32 \/ height (plain_canvas false) <> 32 ->
      dom w' <> dom w).
Proof.
  apply (C10_init_without_context (page_load page_without_2d)
           (plain_canvas false) plain_button plain_icon); reflexivity.
Defined.

(** * Further properties of the module *)

(** ** [init] *)

Lemma listener_found (ls : list (string * listener)) :
  existsb (same_listener the_listener) ls = true <-> In the_listener ls.
Proof.
  rewrite existsb_exists. split.
  - intros ([ty []] & I & E). unfold same_listener, the_listener in E.
    cbn [fst snd] in E. rewrite andb_true_r in E.
    apply String.eqb_eq in E. subst ty. exact I.
  - intros I. exists the_listener. split; [exact I | reflexivity].
Qed.

(** X1.  On a page with a canvas that supports 2D drawing, a button and an
    icon link, [init] returns true and leaves the canvas 32 x 32 and blank,
    its context with the (0,0)-(32,32) gradient from #c7f0fe to #56d3c9, line
    width 8 and an empty path, the button enabled and carrying the mouseenter
    listener once more than before at most, and the icon link, the timers and
    the counter as they were. *)
Theorem init_succeeds (w : World) (c : Canvas) (b : Button) (l : Link) :
  the_canvas w = Some c -> the_button w = Some b -> the_icon w = Some l ->
  supports2d c = true ->
  let w' := after init w in
  fst (init w) = Normal true
  /\ the_canvas w'
     = Some {| width := 32; height := 32; supports2d := true;
               ctx2d :=
                 Some {| strokeStyle :=
                           Gradient
                             {| g_x0 := num 0; g_y0 := num 0;
                                g_x1 := num 32; g_y1 := num 32;
                                g_stops := [(num 0, "#c7f0fe"%string);
                                            (num 1, "#56d3c9"%string)] |};
                         lineWidth := num 8; path := [] |};
               bitmap := [] |}
  /\ (exists b', the_button w' = Some b' /\ disabled b' = false
                 /\ In the_listener (listeners b')
                 /\ (In the_listener (listeners b) ->
                     listeners b' = listeners b)
                 /\ (~ In the_listener (listeners b) ->
                     listeners b' = listeners b ++ [the_listener]))
  /\ the_icon w' = Some l
  /\ timers w' = timers w /\ progress w' = progress w
  /\ handle w' = handle w
  /\ ready w' = true.
Proof.
  intros Ec Eb El Es w'. subst w'. unfold after.
  rewrite (init_when_full w c b l Ec Eb El Es). simpl.
  destruct (init_full_facts w c b l Ec Eb El) as (R & P & T & H & B).
  split; [reflexivity|]. split; [reflexivity|].
  split.
  { exists (with_listener b). split; [exact B|]. split; [reflexivity|].
    unfold with_listener; simpl.
    destruct (existsb (same_listener the_listener) (listeners b)) eqn:E.
    - apply listener_found in E. repeat split; auto. intros N. now destruct N.
    - split; [apply in_or_app; right; left; reflexivity|].
      split; [|reflexivity].
      intros I. apply listener_found in I. congruence. }
  split; [reflexivity|]. auto.
Qed.

Lemma init_succeeds_witness :
  let w := page_load full_page in
  let w' := after init w in
  fst (init w) = Normal true
  /\ (exists b', the_button w' = Some b' /\ disabled b' = false
                 /\ listeners b' = [the_listener])
  /\ ready w' = true.
Proof.
  destruct (init_succeeds (page_load full_page) (plain_canvas true)
              plain_button plain_icon eq_refl eq_refl eq_refl eq_refl)
    as (F & _ & (b' & B & D & _ & _ & L) & _ & _ & _ & _ & R).
  split; [exact F|]. split; [|exact R].
  exists b'. split; [exact B|]. split; [exact D|].
  apply L. intros [].
Defined.

Lemma complete_cases (w : World) (c : Canvas) (b : Button) (l : Link) :
  the_canvas w = Some c -> the_button w = Some b -> the_icon w = Some l ->
  complete (dom w) = supports2d c
  /\ init_entry (dom w)
     = (if supports2d c
        then (LogLevel, "FaviconAnimator initialized successfully"%string)
        else (ErrorLevel, "Canvas 2D context not supported"%string)).
Proof.
  unfold the_canvas, the_button, the_icon, complete, init_entry.
  intros -> -> ->. split; reflexivity.
Qed.

Lemma incomplete_absent (w : World) :
  absent w ->
  complete (dom w) = false
  /\ init_entry (dom w)
     = (ErrorLevel, "Required DOM elements not found"%string).
Proof.
  unfold absent, the_canvas, the_button, the_icon, complete, init_entry.
  destruct (dom_canvas (dom w)), (dom_button (dom w)), (dom_icon (dom w));
    intros [A | [A | A]]; try discriminate; split; reflexivity.
Qed.

(** X2.  [init] never throws.  It returns true exactly on a page that has the
    three nodes and 2D drawing, and each call appends exactly one console
    entry: the success log, or the error of the check that failed. *)
Theorem init_total (w : World) :
  fst (init w) = Normal (complete (dom w))
  /\ console (after init w) = console w ++ [init_entry (dom w)].
Proof.
  unfold after.
  destruct (init_cases w)
    as [[E A] | [(c & b & l & Ec & Eb & El & Es & E)
               | (c & b & l & Ec & Eb & El & Es & E)]]; rewrite E; simpl.
  - destruct (incomplete_absent w A) as [C I]. now rewrite C, I.
  - destruct (complete_cases w c b l Ec Eb El) as [C I].
    now rewrite C, I, Es.
  - destruct (complete_cases w c b l Ec Eb El) as [C I].
    now rewrite C, I, Es.
Qed.

(** X3.  Calling [init] again on an initialised page, also while a run is in
    flight, returns true, keeps the single mouseenter listener, blanks the
    canvas and its path, re-enables the button, and leaves the scheduled
    timers, the handle and the counter untouched. *)
Theorem init_again (w : World) :
  ready w = true -> registered w = true ->
  let w' := after init w in
  fst (init w) = Normal true
  /\ ready w' = true /\ registered w' = true
  /\ is_disabled w' = false
  /\ drawn w' = [] /\ current_path w' = []
  /\ timers w' = timers w /\ handle w' = handle w
  /\ progress w' = progress w.
Proof.
  intros R G w'. subst w'. unfold after.
  destruct (ready_inv w R)
    as (cx & bm & b & l & ts & n & co & p & h & E).
  assert (Ec : the_canvas w
               = Some {| width := CANVAS_SIZE; height := CANVAS_SIZE;
                         supports2d := true; ctx2d := Some cx;
                         bitmap := bm |}) by (now rewrite E).
  assert (Eb : the_button w = Some b) by (now rewrite E).
  assert (El : the_icon w = Some l) by (now rewrite E).
  rewrite (init_when_full w _ b l Ec Eb El eq_refl). simpl.
  destruct (init_full_facts w _ b l Ec Eb El) as (R' & P & T & H & B).
  split; [reflexivity|]. split; [exact R'|].
  split; [apply registered_with_listener; auto|].
  split; [unfold is_disabled; now rewrite B|].
  split; [reflexivity|]. split; [reflexivity|]. auto.
Qed.

Lemma init_again_witness :
  let w := at_tick 40 in
  let w' := after init w in
  is_disabled w = true
  /\ fst (init w) = Normal true
  /\ ready w' = true /\ registered w' = true
  /\ is_disabled w' = false
  /\ drawn w' = [] /\ current_path w' = []
  /\ timers w' = timers w /\ handle w' = handle w
  /\ progress w' = progress w.
Proof.
  split; [reflexivity|].
  apply (init_again (at_tick 40)); vm_compute; reflexivity.
Defined.

(** ** [resetButton] *)

Lemma resetButton_cases (w : World) :
  resetButton w
  = match button (vars w), the_button w with
    | null, _ => (Normal tt, w)
    | bound, Some b =>
        (Normal tt,
         if disabled b
         then set_dom (set_dom_button
                         (Some {| disabled := false;
                                  listeners := listeners b |}) (dom w)) w
         else set_dom (set_dom_button (Some b) (dom w)) w)
    | bound, None => (Throw TypeError, w)
    end.
Proof.
  destruct w as [[c b l] ts n co [vc vx vb vf p h]].
  unfold the_button; simpl.
  destruct vb; [reflexivity|].
  destruct b as [[[] ls]|]; reflexivity.
Qed.

(** X4.  [resetButton] changes nothing but the button's disabled attribute:
    with [button] bound it ends with the attribute absent and the listeners
    as they were, with [button] null it does nothing; the canvas, the icon
    link, the timers and the module's variables are never touched, and a
    second call changes nothing more. *)
Theorem resetButton_only_enables (w : World) :
  let w' := after resetButton w in
  the_canvas w' = the_canvas w /\ the_icon w' = the_icon w
  /\ timers w' = timers w /\ vars w' = vars w /\ console w' = console w
  /\ (forall b, the_button w = Some b ->
        the_button w'
        = Some {| disabled := match button (vars w) with
                              | bound => false
                              | null => disabled b
                              end;
                  listeners := listeners b |})
  /\ after resetButton w' = w'.
Proof.
  intros w'. subst w'. unfold after.
  rewrite (resetButton_cases (snd (resetButton w))).
  rewrite (resetButton_cases w).
  destruct w as [[c b l] ts n co [vc vx vb vf p h]].
  unfold the_canvas, the_button, the_icon; simpl.
  destruct vb; simpl.
  - do 5 (split; [reflexivity|]).
    split; [intros b' ->; now destruct b'|].
    reflexivity.
  - destruct b as [[[] ls]|]; simpl; do 5 (split; [reflexivity|]);
      (split; [intros b' E; inversion E; reflexivity|]);
      reflexivity.
Qed.

(** ** [animateFrame] *)

(** X5.  Run before [init] has bound [context], [animateFrame] throws a
    TypeError at its first statement and leaves the page, the timers and the
    counter exactly as they were. *)
Theorem animateFrame_before_init (w : World) :
  context (vars w) = null ->
  animateFrame w = (Throw TypeError, w).
Proof.
  destruct w as [d ts n co [vc vx vb vf p h]]. simpl. intros ->.
  reflexivity.
Qed.

Lemma animateFrame_before_init_witness :
  animateFrame (page_load full_page) = (Throw TypeError, page_load full_page).
Proof.
  apply (animateFrame_before_init (page_load full_page)). reflexivity.
Defined.

(** X6.  In every world a freshly loaded page reaches, by any sequence of
    [init] calls, pointer entries and ticks, a tick of a scheduled interval
    runs [animateFrame] to normal completion, and a pointer entry runs
    [handleButtonHover] to normal completion: neither ever throws. *)
Theorem callbacks_never_throw (d : Document) (es : list event) :
  fresh d = true ->
  let w := run es (page_load d) in
  (forall h, scheduled h w = true -> fst (animateFrame w) = Normal tt)
  /\ (registered w = true -> fst (handleButtonHover bound w) = Normal tt)
  /\ (registered w = false -> react MouseEnter w = w).
Proof.
  intros F w. destruct (Inv_run d es F) as [_ Hs]. fold w in Hs.
  split; [| split].
  - intros h S. destruct Hs as [[R _] | [T _]].
    + now rewrite (animateFrame_ready w R).
    + unfold scheduled in S. rewrite T in S. discriminate.
  - intros G. unfold registered in G.
    destruct (the_button w) as [b|] eqn:Eb; [|discriminate].
    now rewrite (handleButtonHover_runs w b Eb).
  - intros G. apply mouseenter_unregistered.
    destruct Hs as [[_ G'] | [_ U]]; [congruence | exact U].
Qed.

Lemma callbacks_never_throw_witness :
  let w := run [Load; MouseEnter; Tick 1; MouseEnter; Tick 2; Load]
             (page_load full_page) in
  (forall h, scheduled h w = true -> fst (animateFrame w) = Normal tt)
  /\ (registered w = true -> fst (handleButtonHover bound w) = Normal tt)
  /\ (registered w = false -> react MouseEnter w = w).
Proof.
  apply (callbacks_never_throw full_page
           [Load; MouseEnter; Tick 1; MouseEnter; Tick 2; Load]).
  reflexivity.
Defined.

Lemma right_checked : all_from 26 25 right_check = true.
Proof. vm_compute. reflexivity. Qed.

(** X7.  For 25 < progress <= 50 the frame draws the top edge in full and a
    segment down from the top-right corner of length
    (size/25) x (progress - 25), which is positive, at most size, and exactly
    size at 50 (the whole right edge). *)
Theorem right_edge_grows (w : World) :
  ready w = true -> 25 < progress w <= 50 ->
  let len :=
    PrimFloat.mul per_step (PrimFloat.sub (num (progress w)) (num 25)) in
  let w' := after animateFrame w in
  fst (animateFrame w) = Normal tt
  /\ current_path w'
     = [MoveTo (num 0) (num 0); LineTo side (num 0);
        MoveTo side (num 0); LineTo side len]
  /\ frame_segments w = [top_edge; ((side, num 0), (side, len))]
  /\ (exists s lw, drawn w' = [Stroke (current_path w') s lw])
  /\ feq (seg_length ((side, num 0), (side, len))) len
  /\ flt (num 0) len /\ fle len side
  /\ (progress w = 50 -> ((side, num 0), (side, len)) = right_edge).
Proof.
  intros R Hp len w'.
  destruct (frame_draws w R) as (N & A & P & D & _).
  unfold frame_segments. subst w'.
  rewrite A, P, (outline_right (progress w)) by lia. fold len.
  pose proof (all_from_spec right_check 25 26 right_checked (progress w)) as C.
  assert (Hr : 26 <= progress w < 26 + Z.of_nat 25) by lia.
  specialize (C Hr). unfold right_check in C. fold len in C.
  apply andb_prop in C as [C C3]. apply andb_prop in C as [C1 C2].
  split; [exact N|]. split; [reflexivity|]. split; [reflexivity|].
  split.
  { destruct D as (s & lw & D). exists s, lw.
    rewrite D, (outline_right (progress w)) by lia. reflexivity. }
  split; [exact C1|]. split; [exact C2|]. split; [exact C3|].
  intros E. subst len. rewrite E. reflexivity.
Qed.

Lemma right_edge_grows_witness :
  let w := at_tick 37 in
  let len :=
    PrimFloat.mul per_step (PrimFloat.sub (num (progress w)) (num 25)) in
  frame_segments w = [top_edge; ((side, num 0), (side, len))]
  /\ flt (num 0) len /\ fle len side.
Proof.
  destruct (right_edge_grows (at_tick 37)) as (_ & _ & S & _ & _ & L & U & _).
  - vm_compute. reflexivity.
  - vm_compute. split; [reflexivity | discriminate].
  - split; [exact S|]. split; [exact L | exact U].
Defined.

(** ** Timer ids and the context's style along a run *)

Lemma frame_style (w : World) :
  ready w = true -> context_style (frame w) = context_style w.
Proof.
  intros R. destruct (ready_inv w R)
    as (cx & bm & b & l & ts & n & co & p & h & ->).
  reflexivity.
Qed.

Lemma hovered_canvas (w : World) : the_canvas (hovered w) = the_canvas w.
Proof. reflexivity. Qed.

Lemma not_ready_absent (w : World) : absent w -> ready (init_absent w) = false.
Proof.
  destruct w as [[c b l] ts n co [vc vx vb vf p h]].
  unfold absent, the_canvas, the_button, the_icon; simpl.
  destruct c, b, l; intros [A | [A | A]]; try discriminate;
    destruct vx; reflexivity.
Qed.

Lemma not_ready_no2d (c : Canvas) (w : World) : ready (init_no2d c w) = false.
Proof.
  destruct w as [[c0 b l] ts n co [vc vx vb vf p h]].
  destruct c0; reflexivity.
Qed.

Lemma ids_ok_load (w : World) : ids_ok w -> ids_ok (react Load w).
Proof.
  intros [I H]. destruct (init_keeps w) as (T & Hd & _ & N).
  unfold ids_ok, scheduled, react in *. rewrite T, Hd, N. auto.
Qed.

Lemma ids_ok_hovered (w : World) : ids_ok w -> ids_ok (hovered w).
Proof.
  intros [I H].
  destruct (hovered_facts w) as (_ & _ & _ & _ & Hd & T & N & _).
  unfold ids_ok, scheduled in *. rewrite T, Hd, N. split.
  - intros h. rewrite find_timer_app.
    destruct (find_timer h (timers w)) eqn:F.
    + intros _. specialize (I h). rewrite F in I. specialize (I eq_refl). lia.
    + destruct (Z.eqb_spec (next_timer w) h); [lia | discriminate].
  - intros h E. injection E as <-. rewrite find_timer_app.
    destruct (find_timer (next_timer w) (timers w)); [reflexivity|].
    now rewrite Z.eqb_refl.
Qed.

Lemma ids_ok_frame (w : World) : ready w = true -> ids_ok w -> ids_ok (frame w).
Proof.
  intros R [I H].
  destruct (frame_facts w R) as (_ & _ & _ & Hd & T & N).
  unfold ids_ok, scheduled in *. rewrite T, Hd, N.
  destruct (progress w =? ANIMATION_DURATION); [|auto].
  split; [|discriminate].
  intros h S. apply I.
  destruct (find_timer h (unschedule (handle w) (timers w))) as [t|] eqn:F;
    [|discriminate].
  apply find_timer_unschedule in F as [F _]. now rewrite F.
Qed.

Lemma scheduled_ready (h : Z) (w : World) :
  Inv w -> scheduled h w = true -> ready w = true.
Proof.
  intros [_ [[R _] | [T _]]] S; [exact R|].
  unfold scheduled in S. rewrite T in S. discriminate.
Qed.

Lemma RInv_react (e : event) (w : World) : RInv w -> RInv (react e w).
Proof.
  intros (I & K & S). split; [now apply Inv_react|].
  destruct e as [| | h].
  - split; [now apply ids_ok_load|].
    unfold react, after, styled.
    destruct (init_cases w)
      as [[E A] | [(c & b & l & Ec & Eb & El & Es & E)
                 | (c & b & l & Ec & Eb & El & Es & E)]]; rewrite E; simpl.
    + rewrite (not_ready_absent w A). discriminate.
    + rewrite (not_ready_no2d c w). discriminate.
    + reflexivity.
  - destruct I as [_ [[_ G] | [_ U]]].
    + rewrite (mouseenter_registered w G).
      split; [now apply ids_ok_hovered|].
      destruct (hovered_facts w) as (R & _).
      unfold styled, context_style in *. rewrite R, hovered_canvas. exact S.
    + rewrite (mouseenter_unregistered w U). auto.
  - destruct (scheduled h w) eqn:Sh.
    + pose proof (scheduled_ready h w I Sh) as R.
      rewrite (tick_scheduled h w R Sh).
      split; [now apply ids_ok_frame|].
      unfold styled. rewrite (frame_style w R). intros _. now apply S.
    + rewrite (tick_unscheduled h w Sh). auto.
Qed.

Lemma RInv_page_load (d : Document) : fresh d = true -> RInv (page_load d).
Proof.
  intros F. split; [now apply Inv_page_load|]. split.
  - split; [intros h S | intros h E]; discriminate.
  - intros R. discriminate.
Qed.

Lemma RInv_run (d : Document) (es : list event) :
  fresh d = true -> RInv (run es (page_load d)).
Proof.
  intros F. induction es as [|e es IH] using rev_ind.
  - now apply RInv_page_load.
  - rewrite run_snoc. now apply RInv_react.
Qed.

Lemma RInv_more (es : list event) (w : World) : RInv w -> RInv (run es w).
Proof.
  intros I. induction es as [|e es IH] using rev_ind; [exact I|].
  rewrite run_snoc. now apply RInv_react.
Qed.

(** X8.  In every world a freshly loaded page reaches, the tick of a scheduled
    interval leaves exactly one stroke on the bitmap (earlier frames are
    cleared), painted with the module's gradient at line width 8, and the
    icon link's href is the PNG data URL of that 32 x 32 bitmap. *)
Theorem every_frame_is_styled (d : Document) (es : list event) (h : Z) :
  fresh d = true ->
  let w := run es (page_load d) in
  scheduled h w = true ->
  let w' := react (Tick h) w in
  drawn w' = [Stroke (current_path w') (Gradient the_gradient) (num 8)]
  /\ the_icon w'
     = Some (mkLink (DataURL "image/png" 32 32 (drawn w'))).
Proof.
  intros F w S w'.
  destruct (RInv_run d es F) as (I & _ & St). fold w in I, St.
  pose proof (scheduled_ready h w I S) as R.
  subst w'. rewrite (tick_scheduled h w R S).
  specialize (St R).
  destruct (ready_inv w R)
    as (cx & bm & b & l & ts & n & co & p & hd & E).
  rewrite E in St |- *. unfold context_style in St. simpl in St.
  injection St as S1 S2.
  unfold drawn, frame, the_canvas, current_path; simpl.
  now rewrite S1, S2.
Qed.

Lemma every_frame_is_styled_witness :
  let w := run [Load; MouseEnter; Tick 1; Load; MouseEnter]
             (page_load full_page) in
  let w' := react (Tick 2) w in
  drawn w' = [Stroke (current_path w') (Gradient the_gradient) (num 8)]
  /\ the_icon w'
     = Some (mkLink (DataURL "image/png" 32 32 (drawn w'))).
Proof.
  apply (every_frame_is_styled full_page
           [Load; MouseEnter; Tick 1; Load; MouseEnter] 2); reflexivity.
Defined.

(** X9.  In every world a freshly loaded page reaches, the handle, when it
    is set, names an interval that is scheduled, and every scheduled id is
    below the next id to be handed out: [clearInterval(animationInterval)]
    never misses, and a new interval never reuses a live id. *)
Theorem handle_names_a_live_timer (d : Document) (es : list event) :
  fresh d = true ->
  let w := run es (page_load d) in
  (forall h, handle w = Some h -> scheduled h w = true)
  /\ (forall h, scheduled h w = true -> h < next_timer w).
Proof.
  intros F w. destruct (RInv_run d es F) as (_ & [I H] & _).
  split; [exact H | exact I].
Qed.

Lemma handle_names_a_live_timer_witness :
  let w := run [Load; MouseEnter; Tick 1; MouseEnter] (page_load full_page) in
  (forall h, handle w = Some h -> scheduled h w = true)
  /\ (forall h, scheduled h w = true -> h < next_timer w).
Proof.
  apply (handle_names_a_live_timer full_page
           [Load; MouseEnter; Tick 1; MouseEnter]).
  reflexivity.
Defined.

(** ** Timers that are left behind *)

Lemma orphan_step (e : event) (h : Z) (w : World) :
  RInv w -> scheduled h w = true -> handle w <> Some h ->
  scheduled h (react e w) = true /\ handle (react e w) <> Some h.
Proof.
  intros (I & [B _] & _) S N. destruct e as [| | k].
  - destruct (init_keeps w) as (T & Hd & _).
    unfold scheduled, react in *. now rewrite T, Hd.
  - destruct I as [_ [[_ G] | [_ U]]].
    + rewrite (mouseenter_registered w G).
      destruct (hovered_facts w) as (_ & _ & _ & _ & Hd & T & _).
      unfold scheduled in *. rewrite T, Hd, find_timer_app.
      destruct (find_timer h (timers w)) eqn:F; [|discriminate].
      split; [reflexivity|].
      intros E. injection E as E. specialize (B h).
      rewrite F in B. specialize (B eq_refl). lia.
    + now rewrite (mouseenter_unregistered w U).
  - destruct (scheduled k w) eqn:Sk.
    + pose proof (scheduled_ready k w I Sk) as R.
      rewrite (tick_scheduled k w R Sk).
      destruct (frame_facts w R) as (_ & _ & _ & Hd & T & _).
      unfold scheduled in *. rewrite T, Hd.
      destruct (progress w =? ANIMATION_DURATION).
      * rewrite (find_timer_kept h (handle w) (timers w) N).
        split; [exact S | discriminate].
      * split; [exact S | exact N].
    + now rewrite (tick_unscheduled k w Sk).
Qed.

Lemma orphan_run (es : list event) (h : Z) (w : World) :
  RInv w -> scheduled h w = true -> handle w <> Some h ->
  scheduled h (run es w) = true /\ handle (run es w) <> Some h.
Proof.
  intros I S N. induction es as [|e es IH] using rev_ind; [auto|].
  rewrite run_snoc. destruct IH as [S' N'].
  apply orphan_step; auto. now apply RInv_more.
Qed.

(** X10.  A scheduled interval that the handle does not name is never
    cleared: whatever [init] calls, pointer entries and ticks follow, it stays
    scheduled and the handle never names it again.  (Such an interval is what
    a second pointer entry during a run leaves behind.) *)
Theorem orphan_timer_stays (d : Document) (es es' : list event) (h : Z) :
  fresh d = true ->
  let w := run es (page_load d) in
  scheduled h w = true -> handle w <> Some h ->
  scheduled h (run es' w) = true /\ handle (run es' w) <> Some h.
Proof.
  intros F w S N. apply orphan_run; auto. now apply RInv_run.
Qed.

Lemma orphan_timer_stays_witness :
  let w := run [Load; MouseEnter; Tick 1; MouseEnter] (page_load full_page) in
  let w' := run (repeat (Tick 2) 101 ++ [Tick 1; Tick 1]) w in
  scheduled 1 w' = true /\ handle w' <> Some 1.
Proof.
  apply (orphan_timer_stays full_page
           [Load; MouseEnter; Tick 1; MouseEnter]
           (repeat (Tick 2) 101 ++ [Tick 1; Tick 1]) 1).
  - reflexivity.
  - reflexivity.
  - vm_compute. discriminate.
Defined.

(** ** A whole run *)

Lemma run_app (es es' : list event) (w : World) :
  run (es ++ es') w = run es' (run es w).
Proof. unfold run. now rewrite fold_left_app. Qed.

Lemma ticks_succ (n : nat) (h : Z) (w : World) :
  run (repeat (Tick h) (S n)) w = react (Tick h) (run (repeat (Tick h) n) w).
Proof.
  simpl repeat. rewrite repeat_cons. apply run_snoc.
Qed.

Lemma running_start (d : Document) :
  fresh d = true -> complete d = true ->
  running 0 (run [Load; MouseEnter] (page_load d)).
Proof.
  destruct d as [[[wd ht sup cx bm]|] [[dis ls]|] [l|]];
    unfold fresh, complete; simpl; try discriminate.
  destruct ls; [|discriminate]. intros _ ->.
  destruct cx, dis; repeat split.
Qed.

Lemma running_scheduled (n : Z) (w : World) :
  running n w -> scheduled 1 w = true.
Proof.
  intros (_ & T & _). unfold scheduled. now rewrite T.
Qed.

Lemma running_step (n : Z) (w : World) :
  running n w -> n <> ANIMATION_DURATION ->
  running (n + 1) (react (Tick 1) w).
Proof.
  intros Rn Ne. pose proof (running_scheduled n w Rn) as S.
  destruct Rn as (R & T & H & P & D & St).
  rewrite (tick_scheduled 1 w R S).
  destruct (frame_facts w R) as (R' & B & P' & H' & T' & _).
  rewrite P in P', H', T'.
  destruct (Z.eqb_spec n ANIMATION_DURATION); [contradiction|].
  unfold running. rewrite (frame_style w R).
  repeat split; try congruence.
  unfold is_disabled in *. now rewrite B.
Qed.

Lemma running_ticks (n : nat) (w : World) :
  running 0 w -> (n <= 100)%nat ->
  running (Z.of_nat n) (run (repeat (Tick 1) n) w).
Proof.
  intros R0. induction n as [|n IH]; intros Hn; [exact R0|].
  rewrite ticks_succ. replace (Z.of_nat (S n)) with (Z.of_nat n + 1) by lia.
  apply running_step; [apply IH; lia|].
  unfold ANIMATION_DURATION. lia.
Qed.

Lemma idle_ticks (k : nat) (h : Z) (w : World) :
  timers w = [] -> run (repeat (Tick h) k) w = w.
Proof.
  intros T. induction k as [|k IH]; [reflexivity|].
  rewrite ticks_succ, IH. apply tick_unscheduled.
  unfold scheduled. now rewrite T.
Qed.

(** X11.  On any page that has the three nodes and 2D drawing, [init]
    followed by one pointer entry starts a run on interval 1 that lasts
    exactly 101 frames: after n <= 100 ticks the counter is n, the interval is
    still scheduled and the button is disabled; the 101st tick paints the
    closed square, publishes it as the favicon, clears the interval and nulls
    the handle, with the counter at 100 and the button still disabled; ticks
    after that change nothing. *)
Theorem run_lasts_101_frames (d : Document) :
  fresh d = true -> complete d = true ->
  let w0 := run [Load; MouseEnter] (page_load d) in
  let w1 := run (repeat (Tick 1) 101) w0 in
  (forall n, (n <= 100)%nat ->
     let w := run (repeat (Tick 1) n) w0 in
     progress w = Z.of_nat n /\ scheduled 1 w = true
     /\ handle w = Some 1 /\ is_disabled w = true)
  /\ progress w1 = 100 /\ timers w1 = [] /\ handle w1 = None
  /\ is_disabled w1 = true
  /\ Forall2 same_segment (segments (current_path w1))
       [top_edge; right_edge; bottom_edge; left_edge]
  /\ the_icon w1
     = Some (mkLink (DataURL "image/png" 32 32
               [Stroke (current_path w1) (Gradient the_gradient) (num 8)]))
  /\ (forall k, run (repeat (Tick 1) (101 + k)) w0 = w1).
Proof.
  intros F C w0 w1.
  pose proof (running_start d F C) as R0. fold w0 in R0.
  split.
  { intros n Hn w. pose proof (running_ticks n w0 R0 Hn) as Rn. fold w in Rn.
    pose proof (running_scheduled _ w Rn) as S.
    destruct Rn as (_ & _ & H & P & D & _). auto. }
  assert (Tail : timers w1 = [] ->
                 forall k, run (repeat (Tick 1) (101 + k)) w0 = w1).
  { intros T1 k. rewrite repeat_app, run_app. now apply idle_ticks. }
  pose proof (running_ticks 100 w0 R0 (le_n _)) as R100.
  assert (E1 : w1 = frame (run (repeat (Tick 1) 100) w0)).
  { subst w1. rewrite ticks_succ.
    apply tick_scheduled; [now destruct R100|].
    exact (running_scheduled _ _ R100). }
  revert R100 E1 Tail.
  generalize (run (repeat (Tick 1) 100) w0). generalize w1.
  clear. intros w1 w R100 E1 Tail.
  destruct R100 as (R & T & H & P & D & St).
  destruct (frame_facts w R) as (_ & B & P' & H' & T' & _).
  rewrite P in P', H', T'.
  change (Z.of_nat 100 =? ANIMATION_DURATION) with true in P', H', T'.
  cbv iota in P', H', T'.
  assert (T1 : timers w1 = []).
  { rewrite E1, T', T, H. reflexivity. }
  split; [rewrite E1; exact P'|]. split; [exact T1|].
  split; [rewrite E1; exact H'|].
  split; [rewrite E1; unfold is_disabled in *; now rewrite B|].
  destruct (ready_inv w R)
    as (cx & bm & b & l & ts & n & co & p & hd & Ew).
  assert (Pp : p = 100) by (rewrite Ew in P; exact P).
  assert (Sx : strokeStyle cx = Gradient the_gradient /\ lineWidth cx = num 8).
  { rewrite Ew in St. unfold context_style in St. simpl in St.
    injection St as S1 S2. auto. }
  destruct Sx as [S1 S2].
  split.
  { rewrite E1, Ew. unfold current_path, frame, the_canvas, progress; simpl.
    rewrite Pp. vm_compute. repeat constructor. }
  split.
  { rewrite E1, Ew. unfold current_path, frame, the_canvas, the_icon; simpl.
    now rewrite S1, S2. }
  now apply Tail.
Qed.

Lemma run_lasts_101_frames_witness :
  let w0 := run [Load; MouseEnter] (page_load full_page) in
  let w1 := run (repeat (Tick 1) 101) w0 in
  progress w1 = 100 /\ timers w1 = [] /\ handle w1 = None
  /\ is_disabled w1 = true.
Proof.
  destruct (run_lasts_101_frames full_page eq_refl eq_refl)
    as (_ & P & T & H & D & _).
  repeat split; assumption.
Defined.

(** ** One run per session *)

Lemma one_run_session (d : Document) (w : World) :
  fresh d = true -> session d w -> one_run w.
Proof.
  intros F S. induction S as [| w h S IH | w S IH D].
  - left. destruct (init_keeps (page_load d)) as (T & H & _ & N).
    unfold react. rewrite T, H, N. repeat split.
  - destruct (scheduled h w) eqn:Sh;
      [| now rewrite (tick_unscheduled h w Sh)].
    destruct (SInv_session d w F S) as [I _].
    pose proof (scheduled_ready h w I Sh) as R.
    rewrite (tick_scheduled h w R Sh).
    destruct (frame_facts w R) as (_ & B & _ & _ & _ & N).
    destruct IH as [(_ & T & _) | (N2 & D)].
    + unfold scheduled in Sh. rewrite T in Sh. discriminate.
    + right. rewrite N. split; [exact N2|].
      unfold is_disabled in *. now rewrite B.
  - destruct IH as [(N1 & T & H) | (_ & D')]; [| congruence].
    destruct (SInv_session d w F S) as [[_ [[_ G] | [_ U]]] _].
    + rewrite (mouseenter_registered w G).
      destruct (hovered_facts w) as (_ & _ & _ & _ & _ & _ & N & B).
      right. rewrite N, N1. split; [reflexivity|].
      unfold registered in G. unfold is_disabled.
      destruct (the_button w) as [b|] eqn:Eb; [|discriminate].
      now rewrite (B b eq_refl).
    + rewrite (mouseenter_unregistered w U). left. auto.
Qed.

(** X12.  In a session at most one interval is ever created.  Until the first
    run starts nothing is scheduled; from then on, also after the run has
    ended, the button keeps its disabled attribute ([animateFrame] never
    removes it), so no later pointer entry is delivered and the animation
    cannot be replayed without a new [init]. *)
Theorem one_run_per_session (d : Document) (w : World) :
  fresh d = true -> session d w ->
  next_timer w <= 2
  /\ (next_timer w = 1 -> timers w = [] /\ handle w = None)
  /\ (next_timer w <> 1 -> is_disabled w = true).
Proof.
  intros F S. destruct (one_run_session d w F S) as [(N & T & H) | (N & D)].
  - split; [lia|]. split; [auto | intros Ne; contradiction].
  - split; [lia|]. split; [intros N1; lia | auto].
Qed.

Lemma session_ticks (n : nat) :
  session full_page (run (repeat (Tick 1) n)
                       (run [Load; MouseEnter] (page_load full_page))).
Proof.
  induction n as [|n IH].
  - apply (session_hover full_page (react Load (page_load full_page)));
      [apply session_load | reflexivity].
  - rewrite ticks_succ. now apply session_tick.
Qed.

Lemma one_run_per_session_witness :
  let w := run (repeat (Tick 1) 101)
             (run [Load; MouseEnter] (page_load full_page)) in
  next_timer w <= 2
  /\ (next_timer w = 1 -> timers w = [] /\ handle w = None)
  /\ (next_timer w <> 1 -> is_disabled w = true).
Proof.
  apply (one_run_per_session full_page).
  - reflexivity.
  - apply session_ticks.
Defined.

(** ** A page on which [init] fails *)

Lemma inert_react (i : option Link) (e : event) (w : World) :
  inert i w -> inert i (react e w).
Proof.
  intros (C & T & U & I & P & H). destruct e as [| | h].
  - unfold react, after.
    destruct (init_cases w)
      as [[E A] | [(c & b & l & Ec & Eb & El & Es & E)
                 | (c & b & l & Ec & Eb & El & Es & E)]];
      rewrite E; simpl.
    + split; [exact C|]. split; [exact T|]. split; [exact U|].
      split; [exact I|]. split; [exact P | exact H].
    + split.
      { unfold complete, init_no2d; simpl.
        unfold the_button, the_icon in Eb, El. now rewrite Eb, El. }
      split; [exact T|]. split; [exact U|].
      split; [exact I|]. split; [exact P | exact H].
    + destruct (complete_cases w c b l Ec Eb El) as [C' _]. congruence.
  - now rewrite (mouseenter_unregistered w U).
  - rewrite tick_unscheduled; [repeat split; assumption|].
    unfold scheduled. now rewrite T.
Qed.

(** X13.  On a page that lacks the canvas, the button, the icon link or 2D
    drawing, nothing ever animates: whatever [init] calls, pointer entries and
    ticks occur, no interval is scheduled, no listener is on the button, the
    icon link keeps the href it had, and the counter stays 0. *)
Theorem failed_init_never_animates (d : Document) (es : list event) :
  fresh d = true -> complete d = false ->
  let w := run es (page_load d) in
  timers w = [] /\ unregistered w = true /\ the_icon w = dom_icon d
  /\ progress w = 0 /\ handle w = None.
Proof.
  intros F C w.
  assert (I : inert (dom_icon d) w).
  { subst w. induction es as [|e es IH] using rev_ind.
    - repeat split; auto.
    - rewrite run_snoc. now apply inert_react. }
  destruct I as (_ & T & U & I & P & H). auto.
Qed.

Lemma failed_init_never_animates_witness :
  let w := run [Load; MouseEnter; Tick 1; Load; MouseEnter]
             (page_load page_without_2d) in
  timers w = [] /\ unregistered w = true
  /\ the_icon w = Some plain_icon
  /\ progress w = 0 /\ handle w = None.
Proof.
  apply (failed_init_never_animates page_without_2d
           [Load; MouseEnter; Tick 1; Load; MouseEnter]); reflexivity.
Defined.

(** ** Other events at the button *)

(** X14.  The module listens for mouseenter only: in every world a freshly
    loaded page reaches, dispatching an event of any other type at the button
    (a click, say) runs no code of the module and changes nothing. *)
Theorem only_mouseenter_triggers (d : Document) (es : list event)
    (ty : string) :
  fresh d = true -> ty <> "mouseenter"%string ->
  let w := run es (page_load d) in
  dispatch ty w = w.
Proof.
  intros F Ne w. destruct (Inv_run d es F) as [_ Hs]. fold w in Hs.
  unfold dispatch.
  assert (L : forall b, the_button w = Some b ->
                        listeners b = [] \/ listeners b = [the_listener]).
  { intros b Eb. destruct Hs as [[_ G] | [_ U]].
    - right. unfold registered in G. rewrite Eb in G.
      destruct (listeners b) as [|[t []] [|? ?]]; try discriminate.
      apply String.eqb_eq in G. now subst t.
    - left. unfold unregistered in U. rewrite Eb in U.
      now destruct (listeners b). }
  unfold the_button in L.
  destruct (dom_button (dom w)) as [b|]; [|reflexivity].
  destruct (L b eq_refl) as [-> | ->]; [reflexivity|].
  unfold the_listener. cbn [fold_left fst snd].
  destruct (String.eqb_spec "mouseenter" ty) as [E|_];
    [now subst ty | reflexivity].
Qed.

Lemma only_mouseenter_triggers_witness :
  let w := run [Load] (page_load full_page) in
  dispatch "click" w = w.
Proof.
  apply (only_mouseenter_triggers full_page [Load] "click").
  - reflexivity.
  - discriminate.
Defined.
